(** * The user-channel sample of ozz-animation: attachment state machine

    Shallow embedding of [samples/user_channel/sample_user_channel.cc].
    The class [LoadSampleApplication] keeps a box either attached to a
    skeleton joint or left where it was released, driven by a float track
    that is read with one of two methods: sampling (method 0) or edge
    triggering (method 1).

    C++ [float] values are modelled by canonical rationals ([Qc]), i.e.
    the development reasons over exact arithmetic.  The member functions
    mutate [this] and return [bool]; here they are functions from the
    object state to a pair of the returned flag and the new state. *)

From Stdlib Require Import QArith Qcanon ZArith List String Bool Lia Field.
Import ListNotations.

Abbreviation float := Qc.

Open Scope Qc_scope.

(** ** ozz::math: SimdFloat4 and Float4x4 *)

Module Maths.

(** A SIMD register of four floats. *)
Record SimdFloat4 := MkSimd { sx : float; sy : float; sz : float; sw : float }.

(** Modelled from the spec: the maths library ([ozz/base/maths/simd_math.h])
    is not part of the sample.  The spec calls the type a 4x4 transform,
    [operator*] the matrix product and [Invert] the matrix inverse.  As in
    ozz the matrix is stored by columns, [cols[0..3]]. *)
Record Float4x4 := MkMat
  { col0 : SimdFloat4; col1 : SimdFloat4; col2 : SimdFloat4; col3 : SimdFloat4 }.

Definition simd_add (a b : SimdFloat4) : SimdFloat4 :=
  MkSimd (sx a + sx b) (sy a + sy b) (sz a + sz b) (sw a + sw b).

Definition simd_scale (k : float) (a : SimdFloat4) : SimdFloat4 :=
  MkSimd (k * sx a) (k * sy a) (k * sz a) (k * sw a).

(** The linear combination of the columns of [m] weighted by [v]:
    the product of the matrix with a column vector. *)
Definition TransformVector (m : Float4x4) (v : SimdFloat4) : SimdFloat4 :=
  simd_add
    (simd_add (simd_scale (sx v) (col0 m)) (simd_scale (sy v) (col1 m)))
    (simd_add (simd_scale (sz v) (col2 m)) (simd_scale (sw v) (col3 m))).

(** Modelled from the spec: [operator*(Float4x4, Float4x4)], the matrix
    product, column by column. *)
Definition mul (a b : Float4x4) : Float4x4 :=
  MkMat (TransformVector a (col0 b)) (TransformVector a (col1 b))
        (TransformVector a (col2 b)) (TransformVector a (col3 b)).

(** [Float4x4::identity()]. *)
Definition identity : Float4x4 :=
  MkMat (MkSimd 1 0 0 0) (MkSimd 0 1 0 0) (MkSimd 0 0 1 0) (MkSimd 0 0 0 1).

(** [Float4x4::Translation(v)]: the identity whose last column is
    [(v.x, v.y, v.z, 1)]. *)
Definition Translation (v : SimdFloat4) : Float4x4 :=
  MkMat (MkSimd 1 0 0 0) (MkSimd 0 1 0 0) (MkSimd 0 0 1 0)
        (MkSimd (sx v) (sy v) (sz v) 1).

Definition column (m : Float4x4) (c : nat) : SimdFloat4 :=
  match c with
  | 0%nat => col0 m | 1%nat => col1 m | 2%nat => col2 m | _ => col3 m
  end.

Definition component (v : SimdFloat4) (r : nat) : float :=
  match r with
  | 0%nat => sx v | 1%nat => sy v | 2%nat => sz v | _ => sw v
  end.

(** The entry at row [r] and column [c]. *)
Definition entry (m : Float4x4) (r c : nat) : float :=
  component (column m c) r.

Definition of_entries (f : nat -> nat -> float) : Float4x4 :=
  let col c := MkSimd (f 0%nat c) (f 1%nat c) (f 2%nat c) (f 3%nat c) in
  MkMat (col 0%nat) (col 1%nat) (col 2%nat) (col 3%nat).

Definition scale (k : float) (m : Float4x4) : Float4x4 :=
  MkMat (simd_scale k (col0 m)) (simd_scale k (col1 m))
        (simd_scale k (col2 m)) (simd_scale k (col3 m)).

(** The index [i] of a 3x3 minor seen in the 4x4 matrix once row or
    column [k] is removed. *)
Definition skip (k i : nat) : nat := if (i <? k)%nat then i else S i.

Definition det3 (f : nat -> nat -> float) : float :=
  f 0%nat 0%nat * (f 1%nat 1%nat * f 2%nat 2%nat - f 1%nat 2%nat * f 2%nat 1%nat)
  - f 0%nat 1%nat * (f 1%nat 0%nat * f 2%nat 2%nat - f 1%nat 2%nat * f 2%nat 0%nat)
  + f 0%nat 2%nat * (f 1%nat 0%nat * f 2%nat 1%nat - f 1%nat 1%nat * f 2%nat 0%nat).

Definition minor (m : Float4x4) (r c : nat) : float :=
  det3 (fun i j => entry m (skip r i) (skip c j)).

Definition cofactor (m : Float4x4) (r c : nat) : float :=
  (if Nat.even (r + c) then 1 else - (1)) * minor m r c.

(** Determinant, by expansion along the first row. *)
Definition det (m : Float4x4) : float :=
  entry m 0 0 * cofactor m 0 0 + entry m 0 1 * cofactor m 0 1
  + entry m 0 2 * cofactor m 0 2 + entry m 0 3 * cofactor m 0 3.

(** The adjugate: the transposed matrix of cofactors. *)
Definition adjugate (m : Float4x4) : Float4x4 :=
  of_entries (fun r c => cofactor m c r).

(** Modelled from the spec: [Invert(Float4x4)], the matrix inverse,
    computed from the cofactors as ozz does.  ozz asserts that the
    determinant is not null; for a singular matrix the division below
    yields the null matrix. *)
Definition Invert (m : Float4x4) : Float4x4 :=
  scale (/ det m) (adjugate m).

(** A matrix is invertible when it has a two-sided inverse. *)
Definition invertible (m : Float4x4) : Prop :=
  exists n, mul m n = identity /\ mul n m = identity.

Definition SimdFloat4_eqb (a b : SimdFloat4) : bool :=
  Qc_eq_bool (sx a) (sx b) && Qc_eq_bool (sy a) (sy b)
  && Qc_eq_bool (sz a) (sz b) && Qc_eq_bool (sw a) (sw b).

Definition Float4x4_eqb (a b : Float4x4) : bool :=
  SimdFloat4_eqb (col0 a) (col0 b) && SimdFloat4_eqb (col1 a) (col1 b)
  && SimdFloat4_eqb (col2 a) (col2 b) && SimdFloat4_eqb (col3 a) (col3 b).

End Maths.

Import Maths.

(** A float written as a fraction. *)
Definition fl (n : Z) (d : positive) : float := Q2Qc (Qmake n d).

(** [kBoxInitialPosition = simd_float4::Load(0.f, .1f, .3f, 0.f)]. *)
Definition kBoxInitialPosition : SimdFloat4 :=
  MkSimd 0 (fl 1 10) (fl 3 10) 0.

(** ** The C library's strstr *)

(** [strstr(haystack, needle)] returns a pointer to the first occurrence
    of [needle] in [haystack], or NULL: here the suffix of [haystack]
    that starts with the occurrence, or [None]. *)
Fixpoint strstr (haystack needle : string) : option string :=
  if String.prefix needle haystack then Some haystack
  else match haystack with
       | EmptyString => None
       | String _ rest => strstr rest needle
       end.

(** A C pointer used as a condition. *)
Definition non_null {A : Type} (p : option A) : bool :=
  match p with Some _ => true | None => false end.

(** [needle] occurs in [s]. *)
Definition contains (s needle : string) : Prop :=
  exists before after : string, s = (before ++ needle ++ after)%string.

(** [k] is the index of the first name that contains [needle]. *)
Definition first_containing (needle : string) (names : list string) (k : nat)
  : Prop :=
  (exists name, nth_error names k = Some name /\ contains name needle)
  /\ forall j other, (j < k)%nat -> nth_error names j = Some other ->
                     ~ contains other needle.

(** ** The ozz runtime used by the sample *)

(** [FloatTrackTriggeringJob::Edge]: the ratio at which the track crosses
    the threshold, and the direction of the crossing. *)
Record Edge := MkEdge { time : float; rising : bool }.

(** The playback controller of the sample framework, reduced to the two
    times the sample reads: [time()] and [previous_time()]. *)
Record PlaybackController := MkController
  { time_ : float; previous_time_ : float }.

(** The runtime library and the sample framework are used through their
    interfaces only.  A job's [Run] returns [false] when it fails and
    otherwise writes its outputs: [None] stands for [false], [Some] holds
    what was written.  ozz jobs fail on the validation of their inputs,
    before any write: a failed job leaves its outputs as they were. *)
Class Runtime := {
  Skeleton : Type;
  Animation : Type;
  FloatTrack : Type;
  (** [SamplingCache*]: the pointer with the cache it points to. *)
  SamplingCache : Type;
  (** The contents of a [Range<SoaTransform>]. *)
  SoaTransforms : Type;

  (** [Skeleton::joint_names()], one name per joint:
      [num_joints()] is their number. *)
  joint_names : Skeleton -> list string;
  num_soa_joints : Skeleton -> Z;
  (** [Animation::duration()]. *)
  duration : Animation -> float;

  (** Default-constructed members and the NULL cache. *)
  Skeleton_default : Skeleton;
  Animation_default : Animation;
  FloatTrack_default : FloatTrack;
  SamplingCache_NULL : SamplingCache;
  SoaTransforms_empty : SoaTransforms;

  (** The allocator: [AllocateRange<SoaTransform>(n)],
      [New<SamplingCache>(n)], and what [AllocateRange<Float4x4>] leaves
      in the [i]-th matrix of a fresh, uninitialised buffer. *)
  AllocateRange_SoaTransform : Z -> SoaTransforms;
  New_SamplingCache : Z -> SamplingCache;
  uninitialized_Float4x4 : nat -> Float4x4;

  (** [SamplingJob::Run] with [animation], [cache], [time] and the
      [output] buffer: the cache and the buffer after the job. *)
  SamplingJob_Run :
    Animation -> SamplingCache -> float -> SoaTransforms ->
    option (SamplingCache * SoaTransforms);
  (** [LocalToModelJob::Run] with [skeleton] and [input]: the matrix
      written for each joint of the [output] buffer. *)
  LocalToModelJob_Run : Skeleton -> SoaTransforms -> option (nat -> Float4x4);
  (** [FloatTrackSamplingJob::Run] with [track] and [time]: the [result]. *)
  FloatTrackSamplingJob_Run : FloatTrack -> float -> option float;
  (** [FloatTrackTriggeringJob::Run] with [track], [from], [to],
      [threshold] and the capacity of the [edges] buffer: the edges
      written, [edges[0]] to [edges[Count() - 1]]. *)
  FloatTrackTriggeringJob_Run :
    FloatTrack -> float -> float -> float -> nat -> option (list Edge);

  (** [PlaybackController::set_time]. *)
  PlaybackController_set_time : float -> PlaybackController -> PlaybackController
}.

(** Modelled from the spec: [PlaybackController::Update] belongs to the
    sample framework, which is not part of the sample.  The spec has the
    step advance the clock by [dt]: [previousTime <- currentTime], then
    [currentTime += dt]. *)
Definition PlaybackController_Update (_dt : float) (c : PlaybackController)
  : PlaybackController :=
  {| time_ := time_ c + _dt; previous_time_ := time_ c |}.

(** ** The application object *)

Section Application.

Context {R : Runtime}.

(** [Skeleton::num_joints()], an [int]. *)
Definition num_joints (s : Skeleton) : Z := Z.of_nat (List.length (joint_names s)).

(** The private members of [LoadSampleApplication]. *)
Record App := MkApp {
  controller_ : PlaybackController;
  skeleton_ : Skeleton;
  animation_ : Animation;
  cache_ : SamplingCache;
  locals_ : SoaTransforms;
  (** [Range<Float4x4>]: a buffer of fixed size. *)
  models_ : list Float4x4;
  track_ : FloatTrack;
  (** Track reading method, sampling (0) or triggering (1). *)
  method_ : Z;
  attached_ : bool;
  attach_joint_ : Z;
  box_world_transform_ : Float4x4;
  box_local_transform_ : Float4x4
}.

Definition set_controller (v : PlaybackController) (a : App) : App :=
  MkApp v (skeleton_ a) (animation_ a) (cache_ a) (locals_ a) (models_ a)
        (track_ a) (method_ a) (attached_ a) (attach_joint_ a)
        (box_world_transform_ a) (box_local_transform_ a).

Definition set_skeleton (v : Skeleton) (a : App) : App :=
  MkApp (controller_ a) v (animation_ a) (cache_ a) (locals_ a) (models_ a)
        (track_ a) (method_ a) (attached_ a) (attach_joint_ a)
        (box_world_transform_ a) (box_local_transform_ a).

Definition set_animation (v : Animation) (a : App) : App :=
  MkApp (controller_ a) (skeleton_ a) v (cache_ a) (locals_ a) (models_ a)
        (track_ a) (method_ a) (attached_ a) (attach_joint_ a)
        (box_world_transform_ a) (box_local_transform_ a).

Definition set_cache (v : SamplingCache) (a : App) : App :=
  MkApp (controller_ a) (skeleton_ a) (animation_ a) v (locals_ a) (models_ a)
        (track_ a) (method_ a) (attached_ a) (attach_joint_ a)
        (box_world_transform_ a) (box_local_transform_ a).

Definition set_locals (v : SoaTransforms) (a : App) : App :=
  MkApp (controller_ a) (skeleton_ a) (animation_ a) (cache_ a) v (models_ a)
        (track_ a) (method_ a) (attached_ a) (attach_joint_ a)
        (box_world_transform_ a) (box_local_transform_ a).

Definition set_models (v : list Float4x4) (a : App) : App :=
  MkApp (controller_ a) (skeleton_ a) (animation_ a) (cache_ a) (locals_ a) v
        (track_ a) (method_ a) (attached_ a) (attach_joint_ a)
        (box_world_transform_ a) (box_local_transform_ a).

Definition set_track (v : FloatTrack) (a : App) : App :=
  MkApp (controller_ a) (skeleton_ a) (animation_ a) (cache_ a) (locals_ a)
        (models_ a) v (method_ a) (attached_ a) (attach_joint_ a)
        (box_world_transform_ a) (box_local_transform_ a).

Definition set_method (v : Z) (a : App) : App :=
  MkApp (controller_ a) (skeleton_ a) (animation_ a) (cache_ a) (locals_ a)
        (models_ a) (track_ a) v (attached_ a) (attach_joint_ a)
        (box_world_transform_ a) (box_local_transform_ a).

Definition set_attached (v : bool) (a : App) : App :=
  MkApp (controller_ a) (skeleton_ a) (animation_ a) (cache_ a) (locals_ a)
        (models_ a) (track_ a) (method_ a) v (attach_joint_ a)
        (box_world_transform_ a) (box_local_transform_ a).

Definition set_attach_joint (v : Z) (a : App) : App :=
  MkApp (controller_ a) (skeleton_ a) (animation_ a) (cache_ a) (locals_ a)
        (models_ a) (track_ a) (method_ a) (attached_ a) v
        (box_world_transform_ a) (box_local_transform_ a).

Definition set_box_world_transform (v : Float4x4) (a : App) : App :=
  MkApp (controller_ a) (skeleton_ a) (animation_ a) (cache_ a) (locals_ a)
        (models_ a) (track_ a) (method_ a) (attached_ a) (attach_joint_ a)
        v (box_local_transform_ a).

Definition set_box_local_transform (v : Float4x4) (a : App) : App :=
  MkApp (controller_ a) (skeleton_ a) (animation_ a) (cache_ a) (locals_ a)
        (models_ a) (track_ a) (method_ a) (attached_ a) (attach_joint_ a)
        (box_world_transform_ a) v.

(** The constructor: no cache, triggering method, box detached at its
    initial position, attachment joint 0. *)
Definition LoadSampleApplication : App :=
  {| controller_ := MkController 0 0;
     skeleton_ := Skeleton_default;
     animation_ := Animation_default;
     cache_ := SamplingCache_NULL;
     locals_ := SoaTransforms_empty;
     models_ := [];
     track_ := FloatTrack_default;
     method_ := 1;
     attached_ := false;
     attach_joint_ := 0;
     box_world_transform_ := Translation kBoxInitialPosition;
     box_local_transform_ := identity |}.

(** What is read where [models_] has no entry.  In C++ such a read is
    undefined; no state reached from a successful initialisation on a
    skeleton with a joint performs it. *)
Definition out_of_range : Float4x4 := scale 0 identity.

(** [models_[attach_joint_]]. *)
Definition models_at_attach_joint (a : App) : Float4x4 :=
  nth (Z.to_nat (attach_joint_ a)) (models_ a) out_of_range.

(** A job writing every entry of a buffer of fixed size. *)
Definition write_range (out : nat -> Float4x4) (buffer : list Float4x4)
  : list Float4x4 :=
  map out (seq 0 (List.length buffer)).

(** [if (!f()) return false;] followed by the rest of the function. *)
Definition and_then (r : bool * App) (k : App -> bool * App) : bool * App :=
  if fst r then k (snd r) else (false, snd r).

Notation "'check' a '<-' r ';;' k" := (and_then r (fun a => k))
  (at level 10, a name, r at level 100, k at level 200).

(** [Update_Joints(_time)]: samples the animation at [_time] into
    [locals_], then converts to model space into [models_]. *)
Definition Update_Joints (_time : float) (a : App) : bool * App :=
  match SamplingJob_Run (animation_ a) (cache_ a) _time (locals_ a) with
  | None => (false, a)
  | Some (cache, locals) =>
      let a := set_locals locals (set_cache cache a) in
      match LocalToModelJob_Run (skeleton_ a) (locals_ a) with
      | None => (false, a)
      | Some out => (true, set_models (write_range out (models_ a)) a)
      end
  end.

(** [attached != 0.f]. *)
Definition nonzero (x : float) : bool := negb (Qc_eq_bool x 0).

(** [Update_SamplingMethod()]. *)
Definition Update_SamplingMethod (a : App) : bool * App :=
  check a <- Update_Joints (time_ (controller_ a)) a ;;
  match FloatTrackSamplingJob_Run (track_ a)
          (time_ (controller_ a) / duration (animation_ a)) with
  | None => (false, a)
  | Some attached =>
      let previously_attached := attached_ a in
      let a := set_attached (nonzero attached) a in
      let a :=
        if attached_ a && negb previously_attached
        then set_box_local_transform
               (mul (Invert (models_at_attach_joint a)) (box_world_transform_ a)) a
        else a in
      (true, a)
  end.

(** The body of the loop of [Update_TriggeringMethod] for [edges[i]]. *)
Definition process_edge (edge : Edge) (a : App) : bool * App :=
  let a := set_attached (rising edge) a in
  check a <- Update_Joints (time edge * duration (animation_ a)) a ;;
  (true,
   if rising edge
   then set_box_local_transform
          (mul (Invert (models_at_attach_joint a)) (box_world_transform_ a)) a
   else set_box_world_transform
          (mul (models_at_attach_joint a) (box_local_transform_ a)) a).

(** [for (size_t i = 0; i < edges.Count(); ++i)], leaving the function
    as soon as an iteration returns [false]. *)
Fixpoint process_edges (edges : list Edge) (a : App) : bool * App :=
  match edges with
  | [] => (true, a)
  | edge :: rest => check a <- process_edge edge a ;; process_edges rest a
  end.

(** [job.threshold = .5f] and [edges_buffer[8]]. *)
Definition threshold : float := fl 1 2.
Definition edges_capacity : nat := 8.

(** [Update_TriggeringMethod()]. *)
Definition Update_TriggeringMethod (a : App) : bool * App :=
  match FloatTrackTriggeringJob_Run (track_ a)
          (previous_time_ (controller_ a) / duration (animation_ a))
          (time_ (controller_ a) / duration (animation_ a))
          threshold edges_capacity with
  | None => (false, a)
  | Some edges =>
      check a <- process_edges edges a ;;
      check a <- Update_Joints (time_ (controller_ a)) a ;;
      (true, a)
  end.

(** [OnUpdate(_dt)]. *)
Definition OnUpdate (_dt : float) (a : App) : bool * App :=
  let a := set_controller (PlaybackController_Update _dt (controller_ a)) a in
  check a <- (if (method_ a =? 0)%Z
              then Update_SamplingMethod a
              else Update_TriggeringMethod a) ;;
  (true,
   if attached_ a
   then set_box_world_transform
          (mul (models_at_attach_joint a) (box_local_transform_ a)) a
   else a).

(** The archives read by [OnInitialize]: what [LoadSkeleton],
    [LoadAnimation] and [LoadTrack] find at the paths given as options,
    [None] when loading fails. *)
Record Archives := MkArchives {
  LoadSkeleton : option Skeleton;
  LoadAnimation : option Animation;
  LoadTrack : option FloatTrack
}.

(** The search of [OnInitialize] for the hand joint, from index [i] on:
    [joint_names] holds the names from [i] on, and [attach_joint] is the
    member's current value.  The [int] counter stays below
    [num_joints()], itself an [int]. *)
Fixpoint find_attach_joint (joint_names : list string) (i : Z) (attach_joint : Z)
  : Z :=
  match joint_names with
  | [] => attach_joint
  | name :: rest =>
      if non_null (strstr name "thumb2") then i
      else find_attach_joint rest (i + 1)%Z attach_joint
  end.

(** [OnInitialize()]. *)
Definition OnInitialize (files : Archives) (a : App) : bool * App :=
  match LoadSkeleton files with
  | None => (false, a)
  | Some skeleton =>
      let a := set_skeleton skeleton a in
      let a := set_attach_joint
                 (find_attach_joint (joint_names (skeleton_ a)) 0 (attach_joint_ a))
                 a in
      match LoadAnimation files with
      | None => (false, a)
      | Some animation =>
          let a := set_animation animation a in
          let a := set_locals
                     (AllocateRange_SoaTransform (num_soa_joints (skeleton_ a))) a in
          let a := set_models
                     (map uninitialized_Float4x4
                        (seq 0 (Z.to_nat (num_joints (skeleton_ a))))) a in
          let a := set_cache (New_SamplingCache (num_joints (skeleton_ a))) a in
          match LoadTrack files with
          | None => (false, a)
          | Some track => (true, set_track track a)
          end
      end
  end.

(** What the widgets of one frame report to [OnGui]:
    [DoRadioButton(ref, label, &value)] as the returned flag with the
    value left in [value], whether the animation panel is open, and the
    controller's own [OnGui]. *)
Record ImGui := MkImGui {
  DoRadioButton : Z -> string -> Z -> bool * Z;
  animation_control_open : bool;
  PlaybackController_OnGui : Animation -> PlaybackController -> PlaybackController
}.

(** [OnGui(_im_gui)]. *)
Definition OnGui (_im_gui : ImGui) (a : App) : bool * App :=
  let r0 := DoRadioButton _im_gui 0 "Sampling" (method_ a) in
  let a := set_method (snd r0) a in
  let r1 := DoRadioButton _im_gui 1 "Triggering" (method_ a) in
  let a := set_method (snd r1) a in
  let changed := fst r0 || fst r1 in
  let a :=
    if changed
    then set_box_world_transform (Translation kBoxInitialPosition)
           (set_box_local_transform identity
              (set_attached false
                 (set_controller
                    (PlaybackController_set_time 0 (controller_ a)) a)))
    else a in
  let a :=
    if animation_control_open _im_gui
    then set_controller
           (PlaybackController_OnGui _im_gui (animation_ a) (controller_ a)) a
    else a in
  (true, a).

(** The calls the framework makes on the object once [OnInitialize]
    has returned.  [OnDisplay] and [GetSceneBounds] read the members
    (among them [models_[attach_joint_]]) and write none. *)
Inductive Call :=
| CallOnUpdate (_dt : float)
| CallOnGui (_im_gui : ImGui)
| CallOnDisplay
| CallGetSceneBounds.

Definition run_call (c : Call) (a : App) : App :=
  match c with
  | CallOnUpdate _dt => snd (OnUpdate _dt a)
  | CallOnGui _im_gui => snd (OnGui _im_gui a)
  | CallOnDisplay => a
  | CallGetSceneBounds => a
  end.

(** The states of a session: the object initialised with success, then
    any sequence of calls. *)
Inductive reachable (files : Archives) : App -> Prop :=
| reachable_init a :
    OnInitialize files LoadSampleApplication = (true, a) -> reachable files a
| reachable_call c a :
    reachable files a -> reachable files (run_call c a).

(** What no call changes once the object is initialised: the loaded
    archives, the attachment joint and the size of [models_]. *)
Definition same_session (a a' : App) : Prop :=
  skeleton_ a' = skeleton_ a
  /\ animation_ a' = animation_ a
  /\ track_ a' = track_ a
  /\ attach_joint_ a' = attach_joint_ a
  /\ List.length (models_ a') = List.length (models_ a).

(** What the two update methods leave alone besides: the clock and the
    selected method. *)
Definition same_clock (a a' : App) : Prop :=
  controller_ a' = controller_ a /\ method_ a' = method_ a.

(** The attachment state: the flag and the two transforms of the box. *)
Definition same_attachment (a a' : App) : Prop :=
  attached_ a' = attached_ a
  /\ box_local_transform_ a' = box_local_transform_ a
  /\ box_world_transform_ a' = box_world_transform_ a.

End Application.

Notation "'check' a '<-' r ';;' k" := (and_then r (fun a => k))
  (at level 10, a name, r at level 100, k at level 200).

(** ** The edge-triggered policy in the words of the specification *)

Module Spec.
Section Spec.

Context {R : Runtime}.

(** Step 3 of the policy for one edge, once the previous edges are
    done: nothing after a failure; otherwise set [attached] from the
    edge, evaluate the pose at the exact edge time, and capture the local
    transform on a rising edge, the world transform on a falling one. *)
Definition edge_step (done : bool * App) (edge : Edge) : bool * App :=
  if fst done then
    let a := snd done in
    let pose :=
      Update_Joints (time edge * duration (animation_ a))
                    (set_attached (rising edge) a) in
    if fst pose then
      let joint := models_at_attach_joint (snd pose) in
      (true,
       if rising edge
       then set_box_local_transform
              (mul (Invert joint) (box_world_transform_ a)) (snd pose)
       else set_box_world_transform
              (mul joint (box_local_transform_ a)) (snd pose))
    else (false, snd pose)
  else done.

(** Steps 2 to 5: query the edges over
    [[previousTime/duration, currentTime/duration]] with threshold 0.5,
    process them in order, then evaluate the pose at [currentTime]. *)
Definition policy_B (a : App) : bool * App :=
  match FloatTrackTriggeringJob_Run (track_ a)
          (previous_time_ (controller_ a) / duration (animation_ a))
          (time_ (controller_ a) / duration (animation_ a))
          (fl 1 2) 8 with
  | None => (false, a)
  | Some edges =>
      let done := fold_left edge_step edges (true, a) in
      if fst done then Update_Joints (time_ (controller_ a)) (snd done)
      else done
  end.

End Spec.
End Spec.

(** ** Frame-rate independence, as a property of a state *)

Section FrameRate.

Context {R : Runtime}.

(** The track crosses the threshold once within [[t0, t0 + delta]],
    [t0] being the current time of [a]: the triggering job reports the
    single edge [edge] over the whole interval, and over the two halves
    it reports [first_half] and [second_half], which together are that
    edge. *)
Definition crosses_once (a : App) (delta : float) (edge : Edge)
    (first_half second_half : list Edge) : Prop :=
  let t0 := time_ (controller_ a) in
  let d := duration (animation_ a) in
  let job := FloatTrackTriggeringJob_Run (track_ a) in
  job (t0 / d) ((t0 + delta) / d) threshold edges_capacity = Some [edge]
  /\ job (t0 / d) ((t0 + delta / fl 2 1) / d) threshold edges_capacity
     = Some first_half
  /\ job ((t0 + delta / fl 2 1) / d) ((t0 + delta) / d) threshold edges_capacity
     = Some second_half
  /\ (first_half ++ second_half = [edge])%list.

(** Every pose evaluation on [animation] and [skeleton] succeeds, and the
    model matrices it writes are those of [pose] at the sampled time,
    whatever the cache holds. *)
Definition pose_evaluator (animation : Animation) (skeleton : Skeleton)
    (pose : float -> nat -> Float4x4) : Prop :=
  forall cache locals t,
    exists cache' locals' out,
      SamplingJob_Run animation cache t locals = Some (cache', locals')
      /\ LocalToModelJob_Run skeleton locals' = Some out
      /\ forall j, out j = pose t j.

(** One step of size [delta] and two steps of size [delta / 2] from [a]
    both succeed and end in the same attachment state. *)
Definition frame_rate_independent (a : App) (delta : float) : Prop :=
  let one := OnUpdate delta a in
  let half := OnUpdate (delta / fl 2 1) a in
  let two := OnUpdate (delta / fl 2 1) (snd half) in
  fst one = true /\ fst half = true /\ fst two = true
  /\ same_attachment (snd one) (snd two).

(** The attachment state of [a] as a value: flag, local transform,
    world transform. *)
Definition attachment (a : App) : bool * Float4x4 * Float4x4 :=
  (attached_ a, box_local_transform_ a, box_world_transform_ a).

(** [models_[attach_joint_]] once the matrices of [pose] at time [t]
    have been written to the [models_] buffer of [a]. *)
Definition joint_matrix (a : App) (pose : float -> nat -> Float4x4) (t : float)
  : Float4x4 :=
  nth (Z.to_nat (attach_joint_ a)) (write_range (pose t) (models_ a))
      out_of_range.

(** The effect of one edge on the attachment state, [joint t] being the
    attachment joint's matrix at time [t] and [d] the duration. *)
Definition edge_attachment (joint : float -> Float4x4) (d : float)
    (s : bool * Float4x4 * Float4x4) (edge : Edge)
  : bool * Float4x4 * Float4x4 :=
  let '(_, local, world) := s in
  if rising edge
  then (true, mul (Invert (joint (time edge * d))) world, world)
  else (false, local, mul (joint (time edge * d)) local).

(** The effect of the last stage of [OnUpdate] at time [t]. *)
Definition framed_attachment (joint : float -> Float4x4) (t : float)
    (s : bool * Float4x4 * Float4x4) : bool * Float4x4 * Float4x4 :=
  let '(attached, local, world) := s in
  (attached, local, if attached then mul (joint t) local else world).

End FrameRate.

(** ** A small runtime to run the sample on *)

Module Toy.

Definition Qc_leb (x y : float) : bool := Qle_bool (this x) (this y).
Definition Qc_ltb (x y : float) : bool := negb (Qc_leb y x).

(** The pose of joint [j] at time [t]: a translation along x by
    [(j + 1) * t]. *)
Definition pose (t : float) (j : nat) : Float4x4 :=
  Translation (MkSimd (fl (Z.of_nat (S j)) 1 * t) 0 0 0).

(** The edges of a track within [(from, to]]; the job fails when they
    do not fit in the buffer. *)
Definition triggering (track : list Edge) (from to _threshold : float)
    (capacity : nat) : option (list Edge) :=
  let edges :=
    filter (fun e => Qc_ltb from (time e) && Qc_leb (time e) to) track in
  if (List.length edges <=? capacity)%nat then Some edges else None.

(** The value of a track at [ratio]: 1 after a rising edge, 0 after a
    falling one, 0 before the first edge. *)
Definition sampling (track : list Edge) (ratio : float) : option float :=
  Some (fold_left
          (fun v e => if Qc_leb (time e) ratio
                      then (if rising e then 1 else 0) else v)
          track 0).

(** A runtime whose tracks are the lists of their edges, whose animations
    are their durations, whose skeletons are their joint names, and whose
    sampling cache records the sampled times.  Sampling fails at the
    times selected by [corrupt]. *)
Definition runtime (corrupt : float -> bool) : Runtime :=
  {| Skeleton := list string;
     Animation := float;
     FloatTrack := list Edge;
     SamplingCache := list float;
     SoaTransforms := float;
     joint_names := fun s => s;
     num_soa_joints := fun s => ((Z.of_nat (List.length s) + 3) / 4)%Z;
     duration := fun d => d;
     Skeleton_default := [];
     Animation_default := 0;
     FloatTrack_default := [];
     SamplingCache_NULL := [];
     SoaTransforms_empty := 0;
     AllocateRange_SoaTransform := fun _ => 0;
     New_SamplingCache := fun _ => [];
     uninitialized_Float4x4 := fun _ => scale 0 identity;
     SamplingJob_Run := fun _ cache t _ =>
       if corrupt t then None else Some (t :: cache, t);
     LocalToModelJob_Run := fun _ t => Some (pose t);
     FloatTrackSamplingJob_Run := sampling;
     FloatTrackTriggeringJob_Run := triggering;
     PlaybackController_set_time := fun t _ => MkController t t |}.

(** No sampling fails. *)
Definition never (_ : float) : bool := false.
Definition sound : Runtime := runtime never.

(** Sampling fails at time 6. *)
Definition at_6 (t : float) : bool := Qc_eq_bool t (fl 6 1).
Definition faulty : Runtime := runtime at_6.

Definition skeleton : list string :=
  ["root"; "arm"; "hand"; "thumb1"; "thumb2"; "thumb2_end"]%string.

Definition archives (track : list Edge) : @Archives sound :=
  @MkArchives sound (Some skeleton) (Some (fl 10 1)) (Some track).

(** An initialised object whose clock shows [previous] and [t], with the
    given track and attachment state, the triggering method selected and
    the box attached to joint 4. *)
Definition app (R : Runtime) (sk : @Skeleton R) (an : @Animation R)
    (tr : @FloatTrack R) (previous t : float) (attached : bool)
    (world local : Float4x4) : @App R :=
  {| controller_ := MkController t previous;
     skeleton_ := sk;
     animation_ := an;
     cache_ := SamplingCache_NULL;
     locals_ := SoaTransforms_empty;
     models_ := map (fun _ => identity) (joint_names sk);
     track_ := tr;
     method_ := 1;
     attached_ := attached;
     attach_joint_ := 4;
     box_world_transform_ := world;
     box_local_transform_ := local |}.

(** The box lying at its initial position, on an animation of 10
    seconds. *)
Definition detached (corrupt : float -> bool) (tr : list Edge)
    (previous t : float) : @App (runtime corrupt) :=
  app (runtime corrupt) skeleton (fl 10 1) tr previous t false
      (Translation kBoxInitialPosition) identity.

(** The box held by the hand since the pose of time 0. *)
Definition held (corrupt : float -> bool) (tr : list Edge)
    (previous t : float) : @App (runtime corrupt) :=
  app (runtime corrupt) skeleton (fl 10 1) tr previous t true
      (Translation kBoxInitialPosition) identity.

(** A track rising at ratio 0.5. *)
Definition rising_at_half : Edge := MkEdge (fl 1 2) true.
Definition track_rising : list Edge := [rising_at_half].

(** A track rising at ratio 0.6. *)
Definition track_late : list Edge := [MkEdge (fl 6 10) true].

(** A track rising at ratio 0.3 and falling at ratio 0.6. *)
Definition pick : Edge := MkEdge (fl 3 10) true.
Definition drop : Edge := MkEdge (fl 6 10) false.
Definition track_pick_drop : list Edge := [pick; drop].

(** A track rising at ratio 0.3. *)
Definition track_pick : list Edge := [pick].

(** A track with nine edges. *)
Definition track_busy : list Edge :=
  map (fun k => MkEdge (fl (Z.of_nat k) 10) (Nat.odd k)) (seq 1 9).

(** A frame in which the user selects the sampling method and leaves
    the animation panel alone. *)
Definition gui : @ImGui sound :=
  @MkImGui sound
    (fun ref _ value =>
       if (ref =? 0)%Z then (negb (value =? 0)%Z, 0%Z) else (false, value))
    true (fun _ c => c).

End Toy.

(** * Properties *)

(** ** Matrices *)

Ltac unfold_mat :=
  unfold mul, scale, identity, TransformVector, simd_add, simd_scale; cbn.

Ltac mat_ring := unfold_mat; f_equal; f_equal; ring.

Lemma one_neq_zero : (1 : float) <> 0.
Proof. intro H. apply (f_equal this) in H. discriminate H. Qed.

Lemma TransformVector_mul a b v :
  TransformVector a (TransformVector b v) = TransformVector (mul a b) v.
Proof.
  destruct a as [[] [] [] []], b as [[] [] [] []], v.
  unfold_mat. f_equal; ring.
Qed.

Lemma mul_assoc a b c : mul a (mul b c) = mul (mul a b) c.
Proof.
  unfold mul at 1 2; cbn [col0 col1 col2 col3].
  rewrite !TransformVector_mul. reflexivity.
Qed.

Lemma mul_identity_l m : mul identity m = m.
Proof. destruct m as [[] [] [] []]. mat_ring. Qed.

Lemma mul_identity_r m : mul m identity = m.
Proof. destruct m as [[] [] [] []]. mat_ring. Qed.

Lemma mul_scale_r k a b : mul a (scale k b) = scale k (mul a b).
Proof. destruct a as [[] [] [] []], b as [[] [] [] []]. mat_ring. Qed.

Lemma mul_scale_l k a b : mul (scale k a) b = scale k (mul a b).
Proof. destruct a as [[] [] [] []], b as [[] [] [] []]. mat_ring. Qed.

Lemma scale_scale k l m : scale k (scale l m) = scale (k * l) m.
Proof. destruct m as [[] [] [] []]. mat_ring. Qed.

Lemma scale_one m : scale 1 m = m.
Proof. destruct m as [[] [] [] []]. mat_ring. Qed.

Ltac unfold_det :=
  unfold det, adjugate, of_entries, cofactor, minor, det3, entry; cbn.

Lemma mul_adjugate_r m : mul m (adjugate m) = scale (det m) identity.
Proof. destruct m as [[] [] [] []]. unfold_det. mat_ring. Qed.

Lemma mul_adjugate_l m : mul (adjugate m) m = scale (det m) identity.
Proof. destruct m as [[] [] [] []]. unfold_det. mat_ring. Qed.

Lemma det_mul a b : det (mul a b) = det a * det b.
Proof.
  destruct a as [[] [] [] []], b as [[] [] [] []].
  unfold_det. unfold_mat. ring.
Qed.

Lemma det_identity : det identity = 1.
Proof. unfold_det. ring. Qed.

Lemma mul_Invert_r m : det m <> 0 -> mul m (Invert m) = identity.
Proof.
  intros Hdet. unfold Invert.
  rewrite mul_scale_r, mul_adjugate_r, scale_scale.
  rewrite Qcmult_inv_l by exact Hdet. apply scale_one.
Qed.

Lemma mul_Invert_l m : det m <> 0 -> mul (Invert m) m = identity.
Proof.
  intros Hdet. unfold Invert.
  rewrite mul_scale_l, mul_adjugate_l, scale_scale.
  rewrite Qcmult_inv_l by exact Hdet. apply scale_one.
Qed.

Lemma invertible_det m : invertible m <-> det m <> 0.
Proof.
  split.
  - intros [n [Hr _]] Hdet.
    apply (f_equal det) in Hr.
    rewrite det_mul, det_identity, Hdet in Hr.
    apply one_neq_zero. rewrite <- Hr. ring.
  - intros Hdet. exists (Invert m).
    split; [apply mul_Invert_r | apply mul_Invert_l]; exact Hdet.
Qed.

Lemma Qc_eq_bool_true x y : Qc_eq_bool x y = true <-> x = y.
Proof.
  split; [apply Qc_eq_bool_correct|].
  intros ->. unfold Qc_eq_bool. destruct (Qc_eq_dec y y); congruence.
Qed.

Lemma SimdFloat4_eqb_eq a b : SimdFloat4_eqb a b = true <-> a = b.
Proof.
  destruct a, b. unfold SimdFloat4_eqb; cbn.
  rewrite !andb_true_iff, !Qc_eq_bool_true.
  split; [intros [[[-> ->] ->] ->]; reflexivity | intros [= -> -> -> ->]; auto].
Qed.

Lemma Float4x4_eqb_eq a b : Float4x4_eqb a b = true <-> a = b.
Proof.
  destruct a, b. unfold Float4x4_eqb; cbn.
  rewrite !andb_true_iff, !SimdFloat4_eqb_eq.
  split; [intros [[[-> ->] ->] ->]; reflexivity | intros [= -> -> -> ->]; auto].
Qed.

Lemma Float4x4_eqb_neq a b : Float4x4_eqb a b = false -> a <> b.
Proof.
  intros Hf Heq. apply Float4x4_eqb_eq in Heq. congruence.
Qed.

(** C8. Attach/detach round trip: for every world transform [W] and
    every invertible joint matrix [M], the local transform captured on
    attach, [local = Invert(M) * W], gives back [W] on detach:
    [M * local = W]. *)
Theorem attach_detach_round_trip (W M local : Float4x4) :
  invertible M ->
  local = mul (Invert M) W ->
  mul M local = W.
Proof.
  intros Hinv ->. apply invertible_det in Hinv.
  rewrite mul_assoc, mul_Invert_r by exact Hinv.
  apply mul_identity_l.
Qed.

Lemma attach_detach_round_trip_witness :
  invertible (Toy.pose (fl 3 1) 4)
  /\ mul (Toy.pose (fl 3 1) 4)
         (mul (Invert (Toy.pose (fl 3 1) 4)) (Translation kBoxInitialPosition))
     = Translation kBoxInitialPosition.
Proof.
  assert (Hinv : invertible (Toy.pose (fl 3 1) 4)).
  { exists (Toy.pose (fl (-3) 1) 4).
    split; apply Float4x4_eqb_eq; vm_compute; reflexivity. }
  split; [exact Hinv|].
  apply (attach_detach_round_trip _ (Toy.pose (fl 3 1) 4) _ Hinv).
  reflexivity.
Defined.

(** ** strstr and the search for the attachment joint *)

Lemma prefix_app (needle s : string) :
  String.prefix needle s = true <-> exists after, s = (needle ++ after)%string.
Proof.
  revert s. induction needle as [|c needle IH]; intros s.
  - split; [intros _; exists s; reflexivity | destruct s; reflexivity].
  - destruct s as [|c' s]; cbn.
    + split; [discriminate | intros [after H]; discriminate H].
    + destruct (Ascii.ascii_dec c c') as [->|Hne].
      * rewrite IH. split; intros [after H]; exists after.
        -- now rewrite H.
        -- now injection H.
      * split; [discriminate | intros [after H]; injection H; congruence].
Qed.

Lemma strstr_contains (s needle : string) :
  non_null (strstr s needle) = true <-> contains s needle.
Proof.
  induction s as [|c s IH]; cbn [strstr].
  - destruct (String.prefix needle "") eqn:Hp; cbn.
    + split; [intros _ | reflexivity].
      apply prefix_app in Hp as [after H]. exists ""%string, after. exact H.
    + split; [discriminate | intros [before [after H]]].
      destruct before; [|discriminate H]. cbn in H.
      assert (String.prefix needle "" = true) by (apply prefix_app; eauto).
      congruence.
  - destruct (String.prefix needle (String c s)) eqn:Hp; cbn.
    + split; [intros _ | reflexivity].
      apply prefix_app in Hp as [after H]. exists ""%string, after. exact H.
    + rewrite IH. split; intros [before [after H]].
      * exists (String c before), after. cbn. now rewrite H.
      * destruct before as [|c' before]; cbn in H.
        -- assert (String.prefix needle (String c s) = true)
             by (apply prefix_app; eauto).
           congruence.
        -- injection H as _ H. exists before, after. exact H.
Qed.

Lemma strstr_not_contains (s needle : string) :
  non_null (strstr s needle) = false <-> ~ contains s needle.
Proof.
  rewrite <- strstr_contains. destruct (non_null _); split; congruence.
Qed.

Lemma find_attach_joint_spec (names : list string) (i attach_joint : Z) :
  (exists k, first_containing "thumb2" names k
             /\ find_attach_joint names i attach_joint = (i + Z.of_nat k)%Z)
  \/ ((forall name, In name names -> ~ contains name "thumb2")
      /\ find_attach_joint names i attach_joint = attach_joint).
Proof.
  revert i. induction names as [|name names IH]; intros i; cbn [find_attach_joint].
  - right. split; [intros name [] | reflexivity].
  - destruct (non_null (strstr name "thumb2")) eqn:Hs.
    + left. exists 0%nat. split; [split|].
      * exists name. split; [reflexivity | now apply strstr_contains].
      * intros j other Hj. lia.
      * lia.
    + apply strstr_not_contains in Hs.
      destruct (IH (i + 1)%Z) as [[k [[[n [Hn Hc]] Hfirst] Hk]] | [Hnone Hd]].
      * left. exists (S k). split; [split|].
        -- exists n. split; assumption.
        -- intros [|j] other Hj Hnth; cbn in Hnth.
           ++ injection Hnth as <-. exact Hs.
           ++ apply (Hfirst j); [lia | exact Hnth].
        -- rewrite Hk. lia.
      * right. split; [|exact Hd].
        intros n [<- | Hin]; [exact Hs | now apply Hnone].
Qed.

Lemma find_attach_joint_range (names : list string) (i attach_joint : Z) :
  (i <= find_attach_joint names i attach_joint
   < i + Z.of_nat (List.length names))%Z
  \/ find_attach_joint names i attach_joint = attach_joint.
Proof.
  revert i. induction names as [|name names IH]; intros i; cbn [find_attach_joint].
  - right. reflexivity.
  - destruct (non_null (strstr name "thumb2")).
    + left. cbn [List.length]. lia.
    + destruct (IH (i + 1)%Z) as [H | H]; [left | right; exact H].
      cbn [List.length]. lia.
Qed.

(** ** What the member functions leave unchanged *)

Section Frames.

Context {R : Runtime}.

Lemma and_then_ret (r : bool * App) : (check a <- r ;; (true, a)) = r.
Proof. destruct r as [[] a]; reflexivity. Qed.

Lemma and_then_true (r : bool * App) k a :
  r = (true, a) -> and_then r k = k a.
Proof. intros ->. reflexivity. Qed.

Lemma and_then_false (r : bool * App) k a :
  r = (false, a) -> and_then r k = (false, a).
Proof. intros ->. reflexivity. Qed.

Lemma same_session_refl a : same_session a a.
Proof. repeat split. Qed.

Lemma same_session_trans a b c :
  same_session a b -> same_session b c -> same_session a c.
Proof. unfold same_session. intuition congruence. Qed.

Lemma same_clock_refl a : same_clock a a.
Proof. repeat split. Qed.

Lemma same_clock_trans a b c :
  same_clock a b -> same_clock b c -> same_clock a c.
Proof. unfold same_clock. intuition congruence. Qed.

Lemma same_attachment_refl a : same_attachment a a.
Proof. repeat split. Qed.

Lemma write_range_length out buffer :
  List.length (write_range out buffer) = List.length buffer.
Proof. unfold write_range. now rewrite length_map, length_seq. Qed.

Lemma Update_Joints_frame t a :
  let a' := snd (Update_Joints t a) in
  same_session a a' /\ same_clock a a' /\ same_attachment a a'.
Proof.
  unfold Update_Joints.
  destruct (SamplingJob_Run _ _ _ _) as [[cache locals]|]; cbn;
    [|repeat split].
  destruct (LocalToModelJob_Run _ _); cbn; repeat split.
  apply write_range_length.
Qed.

Lemma process_edge_frame edge a :
  let a' := snd (process_edge edge a) in same_session a a' /\ same_clock a a'.
Proof.
  unfold process_edge, and_then.
  pose proof (Update_Joints_frame
                (time edge * duration (animation_ (set_attached (rising edge) a)))
                (set_attached (rising edge) a)) as (Hs & Hc & _).
  destruct (Update_Joints _ _) as [[] b]; cbn in *;
    [destruct (rising edge); cbn|]; split; assumption.
Qed.

Lemma process_edges_frame edges a :
  let a' := snd (process_edges edges a) in same_session a a' /\ same_clock a a'.
Proof.
  revert a. induction edges as [|edge rest IH]; intros a; cbn.
  - split; [apply same_session_refl | apply same_clock_refl].
  - unfold and_then.
    pose proof (process_edge_frame edge a) as [Hs Hc].
    destruct (process_edge edge a) as [[] b]; cbn in *; [|split; assumption].
    destruct (IH b) as [Hs' Hc'].
    split; [eapply same_session_trans | eapply same_clock_trans]; eassumption.
Qed.

Lemma process_edges_app done rest a :
  process_edges (done ++ rest) a
  = (check b <- process_edges done a ;; process_edges rest b).
Proof.
  revert a. induction done as [|edge done IH]; intros a; cbn; [reflexivity|].
  unfold and_then at 1 3.
  destruct (process_edge edge a) as [[] b]; cbn; [apply IH | reflexivity].
Qed.

Lemma Update_TriggeringMethod_frame a :
  let a' := snd (Update_TriggeringMethod a) in
  same_session a a' /\ same_clock a a'.
Proof.
  unfold Update_TriggeringMethod.
  destruct (FloatTrackTriggeringJob_Run _ _ _ _ _) as [edges|]; cbv zeta;
    [|split; [apply same_session_refl | apply same_clock_refl]].
  unfold and_then.
  pose proof (process_edges_frame edges a) as [Hs Hc].
  destruct (process_edges edges a) as [[] b]; cbn in *; [|split; assumption].
  destruct (Update_Joints_frame (time_ (controller_ b)) b) as (Hs' & Hc' & _).
  destruct (Update_Joints _ b) as [[] c]; cbn in *;
    (split; [eapply same_session_trans | eapply same_clock_trans]; eassumption).
Qed.

Lemma Update_SamplingMethod_frame a :
  let a' := snd (Update_SamplingMethod a) in
  same_session a a' /\ same_clock a a'.
Proof.
  unfold Update_SamplingMethod, and_then.
  destruct (Update_Joints_frame (time_ (controller_ a)) a) as (Hs & Hc & _).
  destruct (Update_Joints _ a) as [[] b]; cbn in *; [|split; assumption].
  destruct (FloatTrackSamplingJob_Run _ _) as [v|]; cbn; [|split; assumption].
  destruct (nonzero v && negb (attached_ b)); cbn; split; assumption.
Qed.

Lemma OnUpdate_frame _dt a : same_session a (snd (OnUpdate _dt a)).
Proof.
  unfold OnUpdate, and_then.
  set (clocked := set_controller _ a).
  assert (Hs : same_session a clocked) by repeat split.
  assert (Hp : same_session clocked
                 (snd (if (method_ clocked =? 0)%Z
                       then Update_SamplingMethod clocked
                       else Update_TriggeringMethod clocked))).
  { destruct (method_ clocked =? 0)%Z;
      [apply Update_SamplingMethod_frame | apply Update_TriggeringMethod_frame]. }
  destruct (if (method_ clocked =? 0)%Z then _ else _) as [[] b]; cbn in *.
  - apply (same_session_trans _ _ _ Hs).
    destruct (attached_ b); [|exact Hp].
    apply (same_session_trans _ _ _ Hp). repeat split.
  - exact (same_session_trans _ _ _ Hs Hp).
Qed.

Lemma OnGui_frame _im_gui a : same_session a (snd (OnGui _im_gui a)).
Proof.
  unfold OnGui; cbn.
  destruct (fst _ || fst _), (animation_control_open _im_gui); repeat split.
Qed.

Lemma run_call_frame c a : same_session a (run_call c a).
Proof.
  destruct c;
    [apply OnUpdate_frame | apply OnGui_frame | apply same_session_refl ..].
Qed.

End Frames.

(** ** The edge-triggered method *)

Section Triggering.

Context {R : Runtime}.

Lemma edge_step_process_edge edge a :
  Spec.edge_step (true, a) edge = process_edge edge a.
Proof.
  unfold Spec.edge_step, process_edge, and_then; cbn [fst snd].
  pose proof (Update_Joints_frame
                (time edge * duration (animation_ a))
                (set_attached (rising edge) a)) as (_ & _ & (_ & Hlo & Hwo)).
  change (animation_ (set_attached (rising edge) a)) with (animation_ a).
  destruct (Update_Joints _ _) as [[] b]; cbn [fst snd] in *;
    [|reflexivity].
  now rewrite Hlo, Hwo.
Qed.

Lemma edge_step_failed edges a :
  fold_left Spec.edge_step edges (false, a) = (false, a).
Proof. induction edges as [|edge rest IH]; [reflexivity | exact IH]. Qed.

Lemma fold_edge_step_process_edges edges a :
  fold_left Spec.edge_step edges (true, a) = process_edges edges a.
Proof.
  revert a. induction edges as [|edge rest IH]; intros a; cbn [fold_left];
    [reflexivity|].
  rewrite edge_step_process_edge. cbn [process_edges]. unfold and_then.
  destruct (process_edge edge a) as [[] b]; cbn [fst snd];
    [apply IH | apply edge_step_failed].
Qed.

(** C2. Per-edge processing of the edge-triggered policy: the method
    queries the edges over [[previous_time/duration, time/duration]] with
    threshold 0.5 and, for each edge in order, sets [attached_] from
    [edge.rising], evaluates the pose at [edge.time * duration], and
    captures the local transform on a rising edge or the world transform
    on a falling one, as the specification words it. *)
Theorem Update_TriggeringMethod_per_edge (a : App) :
  Update_TriggeringMethod a = Spec.policy_B a.
Proof.
  unfold Update_TriggeringMethod, Spec.policy_B.
  change threshold with (fl 1 2). change edges_capacity with 8%nat.
  destruct (FloatTrackTriggeringJob_Run _ _ _ _ _) as [edges|]; [|reflexivity].
  cbv zeta. rewrite fold_edge_step_process_edges. unfold and_then at 1.
  pose proof (process_edges_frame edges a) as [_ [Hc _]].
  destruct (process_edges edges a) as [[] b]; cbn [fst snd] in *;
    [|reflexivity].
  rewrite and_then_ret, Hc. reflexivity.
Qed.

Lemma Update_TriggeringMethod_edges a edges :
  FloatTrackTriggeringJob_Run (track_ a)
    (previous_time_ (controller_ a) / duration (animation_ a))
    (time_ (controller_ a) / duration (animation_ a))
    threshold edges_capacity = Some edges ->
  Update_TriggeringMethod a
  = (check b <- process_edges edges a ;; Update_Joints (time_ (controller_ a)) b).
Proof.
  intros Hjob. unfold Update_TriggeringMethod. rewrite Hjob.
  unfold and_then at 1 3.
  pose proof (process_edges_frame edges a) as [_ [Hc _]].
  destruct (process_edges edges a) as [[] b]; cbn [fst snd] in *;
    [|reflexivity].
  rewrite and_then_ret, Hc. reflexivity.
Qed.

Lemma Update_TriggeringMethod_edge_failure a done edge rest b c :
  FloatTrackTriggeringJob_Run (track_ a)
    (previous_time_ (controller_ a) / duration (animation_ a))
    (time_ (controller_ a) / duration (animation_ a))
    threshold edges_capacity = Some (done ++ edge :: rest)%list ->
  process_edges done a = (true, b) ->
  Update_Joints (time edge * duration (animation_ a))
                (set_attached (rising edge) b) = (false, c) ->
  Update_TriggeringMethod a = (false, c)
  /\ attached_ c = rising edge
  /\ box_local_transform_ c = box_local_transform_ b
  /\ box_world_transform_ c = box_world_transform_ b.
Proof.
  intros Hjob Hdone Hpose.
  pose proof (process_edges_frame done a) as [(_ & Han & _) _].
  rewrite Hdone in Han; cbn [snd] in Han.
  split.
  - rewrite (Update_TriggeringMethod_edges _ _ Hjob), process_edges_app, Hdone.
    cbn [and_then fst snd process_edges]. unfold process_edge.
    cbn [animation_ set_attached]. rewrite Han, Hpose. reflexivity.
  - pose proof (Update_Joints_frame (time edge * duration (animation_ a))
                  (set_attached (rising edge) b)) as (_ & _ & Hat).
    rewrite Hpose in Hat. exact Hat.
Qed.

Lemma Update_TriggeringMethod_final_failure a edges b c :
  FloatTrackTriggeringJob_Run (track_ a)
    (previous_time_ (controller_ a) / duration (animation_ a))
    (time_ (controller_ a) / duration (animation_ a))
    threshold edges_capacity = Some edges ->
  process_edges edges a = (true, b) ->
  Update_Joints (time_ (controller_ a)) b = (false, c) ->
  Update_TriggeringMethod a = (false, c) /\ same_attachment b c.
Proof.
  intros Hjob Hdone Hpose. split.
  - rewrite (Update_TriggeringMethod_edges _ _ Hjob), Hdone.
    cbn [and_then fst snd]. exact Hpose.
  - pose proof (Update_Joints_frame (time_ (controller_ a)) b) as (_ & _ & Hat).
    rewrite Hpose in Hat. exact Hat.
Qed.

(** A step of size 0 leaves the clock with [previous_time == time]. *)
Lemma PlaybackController_Update_zero (c : PlaybackController) :
  previous_time_ (PlaybackController_Update 0 c)
  = time_ (PlaybackController_Update 0 c).
Proof. cbn. ring. Qed.

(** C3. Final evaluation of the edge-triggered policy: a successful
    step ends with a pose evaluation at the current time, whatever the
    edges were; and when the interval is degenerate
    ([previous_time == time], for which the triggering job reports no
    edge), the step is that evaluation alone and leaves the attachment
    state as it was. *)
Theorem Update_TriggeringMethod_final_evaluation (a : App) :
  (forall a', Update_TriggeringMethod a = (true, a') ->
     exists edges b,
       FloatTrackTriggeringJob_Run (track_ a)
         (previous_time_ (controller_ a) / duration (animation_ a))
         (time_ (controller_ a) / duration (animation_ a))
         threshold edges_capacity = Some edges
       /\ process_edges edges a = (true, b)
       /\ Update_Joints (time_ (controller_ a)) b = (true, a'))
  /\ (previous_time_ (controller_ a) = time_ (controller_ a) ->
      (forall ratio,
          FloatTrackTriggeringJob_Run (track_ a) ratio ratio
            threshold edges_capacity = Some []) ->
      Update_TriggeringMethod a = Update_Joints (time_ (controller_ a)) a
      /\ same_attachment a (snd (Update_TriggeringMethod a))).
Proof.
  split.
  - intros a' Hok.
    destruct (FloatTrackTriggeringJob_Run (track_ a)
                (previous_time_ (controller_ a) / duration (animation_ a))
                (time_ (controller_ a) / duration (animation_ a))
                threshold edges_capacity) as [edges|] eqn:Hjob.
    + rewrite (Update_TriggeringMethod_edges _ _ Hjob) in Hok.
      unfold and_then in Hok.
      destruct (process_edges edges a) as [[] b] eqn:Hdone;
        cbn [fst snd] in Hok; [|discriminate Hok].
      exists edges, b. repeat split; assumption.
    + unfold Update_TriggeringMethod in Hok. rewrite Hjob in Hok.
      discriminate Hok.
  - intros Hsame Hnone.
    assert (Hstep : Update_TriggeringMethod a
                    = Update_Joints (time_ (controller_ a)) a).
    { rewrite (Update_TriggeringMethod_edges a []); [reflexivity|].
      rewrite Hsame. apply Hnone. }
    split; [exact Hstep|].
    rewrite Hstep. apply Update_Joints_frame.
Qed.

(** C6. Failure propagation without rollback: when the edge query
    fails, when the pose evaluation of some edge fails, or when the final
    pose evaluation fails, the method returns [false] in the state
    reached at the failure, which holds the transforms and the flag as
    the earlier edges of the step left them; and [OnUpdate] returns that
    failure without its final stage. *)
Theorem Update_TriggeringMethod_failure :
  (forall a,
      FloatTrackTriggeringJob_Run (track_ a)
        (previous_time_ (controller_ a) / duration (animation_ a))
        (time_ (controller_ a) / duration (animation_ a))
        threshold edges_capacity = None ->
      Update_TriggeringMethod a = (false, a))
  /\ (forall a done edge rest b c,
      FloatTrackTriggeringJob_Run (track_ a)
        (previous_time_ (controller_ a) / duration (animation_ a))
        (time_ (controller_ a) / duration (animation_ a))
        threshold edges_capacity = Some (done ++ edge :: rest)%list ->
      process_edges done a = (true, b) ->
      Update_Joints (time edge * duration (animation_ a))
                    (set_attached (rising edge) b) = (false, c) ->
      Update_TriggeringMethod a = (false, c)
      /\ box_local_transform_ c = box_local_transform_ b
      /\ box_world_transform_ c = box_world_transform_ b)
  /\ (forall a edges b c,
      FloatTrackTriggeringJob_Run (track_ a)
        (previous_time_ (controller_ a) / duration (animation_ a))
        (time_ (controller_ a) / duration (animation_ a))
        threshold edges_capacity = Some edges ->
      process_edges edges a = (true, b) ->
      Update_Joints (time_ (controller_ a)) b = (false, c) ->
      Update_TriggeringMethod a = (false, c) /\ same_attachment b c)
  /\ (forall _dt a,
      let clocked :=
        set_controller (PlaybackController_Update _dt (controller_ a)) a in
      method_ a <> 0%Z ->
      fst (Update_TriggeringMethod clocked) = false ->
      OnUpdate _dt a = Update_TriggeringMethod clocked).
Proof.
  repeat apply conj.
  - intros a Hjob. unfold Update_TriggeringMethod. now rewrite Hjob.
  - intros a done edge rest b c Hjob Hdone Hpose.
    destruct (Update_TriggeringMethod_edge_failure _ _ _ _ _ _ Hjob Hdone Hpose)
      as (Hstep & _ & Hlocal & Hworld).
    repeat split; assumption.
  - intros a edges b c. apply Update_TriggeringMethod_final_failure.
  - intros _dt a clocked Hmethod Hfail. unfold OnUpdate. fold clocked.
    replace (method_ clocked =? 0)%Z with false
      by (symmetry; apply Z.eqb_neq; exact Hmethod).
    unfold and_then. rewrite Hfail.
    destruct (Update_TriggeringMethod clocked) as [ok b]; cbn in *.
    now subst ok.
Qed.

End Triggering.

(** ** The sampling method, the update and the initialisation *)

Section Session.

Context {R : Runtime}.

Lemma nonzero_spec (x : float) : nonzero x = true <-> x <> 0.
Proof.
  unfold nonzero. rewrite negb_true_iff, <- not_true_iff_false.
  now rewrite Qc_eq_bool_true.
Qed.

(** C4. Semantics of the sampling policy: the pose is evaluated at the
    current time and the track sampled at [time / duration]; the new flag
    is [value != 0]; the local transform is recomputed as
    [Invert(models_[attach_joint_]) * box_world_transform_] exactly when
    the flag goes from false to true, and is unchanged otherwise. *)
Theorem Update_SamplingMethod_semantics (a : App) :
  let pose := Update_Joints (time_ (controller_ a)) a in
  let sampled :=
    FloatTrackSamplingJob_Run (track_ a)
      (time_ (controller_ a) / duration (animation_ a)) in
  let a' := snd (Update_SamplingMethod a) in
  match fst pose, sampled with
  | true, Some value =>
      fst (Update_SamplingMethod a) = true
      /\ (attached_ a' = true <-> value <> 0)
      /\ box_local_transform_ a'
         = (if negb (attached_ a) && attached_ a'
            then mul (Invert (models_at_attach_joint (snd pose)))
                     (box_world_transform_ a)
            else box_local_transform_ a)
      /\ box_world_transform_ a' = box_world_transform_ a
      /\ models_ a' = models_ (snd pose)
  | _, _ => Update_SamplingMethod a = (false, snd pose)
  end.
Proof.
  cbv zeta. unfold Update_SamplingMethod, and_then.
  destruct (Update_Joints_frame (time_ (controller_ a)) a)
    as ((_ & Han & Htr & _) & (Hc & _) & (Hat & Hlo & Hwo)).
  destruct (Update_Joints (time_ (controller_ a)) a) as [[] b];
    cbn [fst snd] in *; [|reflexivity].
  rewrite Hc, Han, Htr.
  destruct (FloatTrackSamplingJob_Run _ _) as [value|]; [|reflexivity].
  cbn [fst snd attached_ set_attached]. rewrite Hat.
  split; [reflexivity|].
  destruct (nonzero value) eqn:Hv, (attached_ a); cbn;
    rewrite ?Hlo, ?Hwo; repeat split; try reflexivity; try discriminate;
    try (intros _; now apply nonzero_spec);
    try (intros Hne; apply nonzero_spec in Hne; congruence).
Qed.

Lemma Update_TriggeringMethod_success a a' :
  Update_TriggeringMethod a = (true, a') ->
  exists edges b,
    FloatTrackTriggeringJob_Run (track_ a)
      (previous_time_ (controller_ a) / duration (animation_ a))
      (time_ (controller_ a) / duration (animation_ a))
      threshold edges_capacity = Some edges
    /\ process_edges edges a = (true, b)
    /\ Update_Joints (time_ (controller_ a)) b = (true, a').
Proof.
  intros Hok.
  destruct (FloatTrackTriggeringJob_Run (track_ a)
              (previous_time_ (controller_ a) / duration (animation_ a))
              (time_ (controller_ a) / duration (animation_ a))
              threshold edges_capacity) as [edges|] eqn:Hjob.
  - rewrite (Update_TriggeringMethod_edges _ _ Hjob) in Hok.
    unfold and_then in Hok.
    destruct (process_edges edges a) as [[] b] eqn:Hdone;
      cbn [fst snd] in Hok; [|discriminate Hok].
    exists edges, b. repeat split; assumption.
  - unfold Update_TriggeringMethod in Hok. rewrite Hjob in Hok.
    discriminate Hok.
Qed.

Lemma Update_SamplingMethod_success a a' :
  Update_SamplingMethod a = (true, a') ->
  exists b, Update_Joints (time_ (controller_ a)) a = (true, b)
            /\ models_ a' = models_ b.
Proof.
  unfold Update_SamplingMethod, and_then.
  destruct (Update_Joints (time_ (controller_ a)) a) as [[] b];
    cbn [fst snd]; [|discriminate].
  destruct (FloatTrackSamplingJob_Run _ _) as [value|]; [|discriminate].
  intros [= <-]. exists b. split; [reflexivity|].
  cbn [attached_ set_attached].
  destruct (nonzero value && negb (attached_ b)); reflexivity.
Qed.

(** C5. The last stage of [OnUpdate], run once the selected method has
    succeeded: an attached box gets
    [box_world_transform_ = models_[attach_joint_] * box_local_transform_],
    with the matrices of the pose evaluated at the current time; a
    detached box keeps its world transform; the local transform and the
    flag are not touched.  A failed method ends the step before this
    stage. *)
Theorem OnUpdate_world_transform (_dt : float) (a : App) :
  let clocked :=
    set_controller (PlaybackController_Update _dt (controller_ a)) a in
  let policy :=
    if (method_ a =? 0)%Z
    then Update_SamplingMethod clocked
    else Update_TriggeringMethod clocked in
  let b := snd policy in
  let a' := snd (OnUpdate _dt a) in
  if fst policy then
    fst (OnUpdate _dt a) = true
    /\ attached_ a' = attached_ b
    /\ box_local_transform_ a' = box_local_transform_ b
    /\ box_world_transform_ a'
       = (if attached_ b
          then mul (models_at_attach_joint b) (box_local_transform_ b)
          else box_world_transform_ b)
    /\ exists before after,
        Update_Joints (time_ (controller_ a) + _dt) before = (true, after)
        /\ models_ b = models_ after
  else OnUpdate _dt a = (false, b).
Proof.
  cbv zeta. unfold OnUpdate, and_then.
  set (clocked := set_controller _ a).
  change (method_ clocked) with (method_ a).
  destruct (if (method_ a =? 0)%Z then _ else _) as [[] b] eqn:Hpolicy;
    cbn [fst snd]; [|reflexivity].
  split; [reflexivity|].
  split; [destruct (attached_ b) eqn:Hat; cbn; rewrite ?Hat; reflexivity|].
  split; [destruct (attached_ b); reflexivity|].
  split; [destruct (attached_ b); reflexivity|].
  cbn [time_ controller_ clocked set_controller PlaybackController_Update]
    in Hpolicy.
  destruct (method_ a =? 0)%Z.
    + apply Update_SamplingMethod_success in Hpolicy as (after & Hpose & Hm).
      exists clocked, after. split; [exact Hpose | exact Hm].
    + apply Update_TriggeringMethod_success in Hpolicy
        as (edges & before & _ & _ & Hpose).
      exists before, b. split; [exact Hpose | reflexivity].
Qed.

(** C7. Selection of the attachment joint: once the skeleton is loaded,
    [attach_joint_] is the index of the first joint, in the order
    [0 .. num_joints - 1], whose name contains "thumb2"; when no name
    contains it, [attach_joint_] is still the constructor's 0. *)
Theorem OnInitialize_attach_joint (files : Archives) (skeleton : Skeleton) :
  LoadSkeleton files = Some skeleton ->
  let a := snd (OnInitialize files LoadSampleApplication) in
  (exists k, first_containing "thumb2" (joint_names skeleton) k
             /\ attach_joint_ a = Z.of_nat k)
  \/ ((forall name, In name (joint_names skeleton) -> ~ contains name "thumb2")
      /\ attach_joint_ a = 0%Z).
Proof.
  intros Hload. cbv zeta. unfold OnInitialize. rewrite Hload.
  destruct (LoadAnimation files); [destruct (LoadTrack files)|];
    cbn [snd attach_joint_ set_track set_cache set_models set_locals
         set_animation set_attach_joint skeleton_ set_skeleton
         LoadSampleApplication];
    apply find_attach_joint_spec.
Qed.

Lemma OnInitialize_success files a :
  OnInitialize files LoadSampleApplication = (true, a) ->
  attach_joint_ a = find_attach_joint (joint_names (skeleton_ a)) 0 0
  /\ List.length (models_ a) = List.length (joint_names (skeleton_ a)).
Proof.
  unfold OnInitialize.
  destruct (LoadSkeleton files) as [skeleton|]; [|discriminate].
  destruct (LoadAnimation files) as [animation|]; [|discriminate].
  destruct (LoadTrack files) as [track|]; [|discriminate].
  intros [= <-]. cbn. split; [reflexivity|].
  unfold num_joints. now rewrite length_map, length_seq, Nat2Z.id.
Qed.

Lemma reachable_same_session files a :
  reachable files a ->
  exists a0, OnInitialize files LoadSampleApplication = (true, a0)
             /\ same_session a0 a.
Proof.
  induction 1 as [a Hinit | c a _ (a0 & Hinit & Hs)].
  - exists a. split; [exact Hinit | apply same_session_refl].
  - exists a0. split; [exact Hinit|].
    eapply same_session_trans; [exact Hs | apply run_call_frame].
Qed.

(** C10. Bound of the attachment joint: for a skeleton with at least
    one joint, every state of a session has
    [0 <= attach_joint_ < num_joints], [models_] holds exactly
    [num_joints] matrices, so [models_[attach_joint_]] reads inside the
    buffer, and [attach_joint_] is the value set by [OnInitialize]. *)
Theorem attach_joint_in_range (files : Archives) (a : App) :
  reachable files a ->
  (0 < num_joints (skeleton_ a))%Z ->
  (0 <= attach_joint_ a < num_joints (skeleton_ a))%Z
  /\ Z.of_nat (List.length (models_ a)) = num_joints (skeleton_ a)
  /\ nth_error (models_ a) (Z.to_nat (attach_joint_ a))
     = Some (models_at_attach_joint a)
  /\ attach_joint_ a
     = attach_joint_ (snd (OnInitialize files LoadSampleApplication)).
Proof.
  intros Hreach Hjoints.
  destruct (reachable_same_session _ _ Hreach)
    as (a0 & Hinit & Hsk & _ & _ & Hj & Hlen).
  destruct (OnInitialize_success _ _ Hinit) as [Hj0 Hlen0].
  rewrite Hinit; cbn [snd].
  unfold num_joints in *. rewrite Hsk in *. rewrite Hlen, Hlen0, Hj, Hj0.
  assert (Hrange : (0 <= find_attach_joint (joint_names (skeleton_ a0)) 0 0
                    < Z.of_nat (List.length (joint_names (skeleton_ a0))))%Z).
  { destruct (find_attach_joint_range (joint_names (skeleton_ a0)) 0 0)
      as [H | ->]; lia. }
  repeat split; try apply Hrange.
  unfold models_at_attach_joint. rewrite Hj, Hj0.
  apply nth_error_nth'. rewrite Hlen, Hlen0. lia.
Qed.

End Session.

(** ** Frame-rate independence of the edge-triggered method *)

Section FrameRateIndependence.

Context {R : Runtime}.

Lemma two_neq_zero : (1 + 1 : float) <> 0.
Proof. intro H. apply (f_equal this) in H. discriminate H. Qed.

Lemma two_halves (t delta : float) :
  t + delta / fl 2 1 + delta / fl 2 1 = t + delta.
Proof.
  replace (fl 2 1) with (1 + 1 : float) by (apply Qc_is_canon; reflexivity).
  field. apply two_neq_zero.
Qed.

Lemma joint_matrix_session a b pose t :
  same_session a b -> joint_matrix b pose t = joint_matrix a pose t.
Proof.
  intros (_ & _ & _ & Hj & Hlen). unfold joint_matrix, write_range.
  now rewrite Hj, Hlen.
Qed.

Lemma Update_Joints_pose a pose t :
  pose_evaluator (animation_ a) (skeleton_ a) pose ->
  exists a', Update_Joints t a = (true, a')
             /\ models_at_attach_joint a' = joint_matrix a pose t.
Proof.
  intros Hpose.
  destruct (Hpose (cache_ a) (locals_ a) t)
    as (cache & locals & out & Hsample & Hmodel & Hout).
  unfold Update_Joints. rewrite Hsample.
  cbn [skeleton_ locals_ set_locals set_cache]. rewrite Hmodel.
  eexists. split; [reflexivity|].
  unfold models_at_attach_joint, joint_matrix, write_range. cbn.
  f_equal. apply map_ext. exact Hout.
Qed.

Lemma process_edge_attachment a pose joint edge :
  pose_evaluator (animation_ a) (skeleton_ a) pose ->
  (forall t, joint_matrix a pose t = joint t) ->
  exists a', process_edge edge a = (true, a')
             /\ attachment a'
                = edge_attachment joint (duration (animation_ a))
                    (attachment a) edge.
Proof.
  intros Hpose Hjoint. unfold process_edge.
  set (b := set_attached (rising edge) a).
  destruct (Update_Joints_pose b pose (time edge * duration (animation_ b)) Hpose)
    as (c & Hc & Hm).
  pose proof (Update_Joints_frame (time edge * duration (animation_ b)) b)
    as (_ & _ & (Hat & Hlo & Hwo)).
  rewrite Hc in Hat, Hlo, Hwo; cbn [snd] in Hat, Hlo, Hwo.
  rewrite Hc. cbn [and_then fst snd]. eexists. split; [reflexivity|].
  unfold attachment, edge_attachment. rewrite Hm.
  change (joint_matrix b pose) with (joint_matrix a pose). rewrite Hjoint.
  change (animation_ b) with (animation_ a).
  destruct (rising edge); cbn; rewrite ?Hat, ?Hlo, ?Hwo; reflexivity.
Qed.

Lemma process_edges_attachment edges : forall a pose joint,
  pose_evaluator (animation_ a) (skeleton_ a) pose ->
  (forall t, joint_matrix a pose t = joint t) ->
  exists a', process_edges edges a = (true, a')
             /\ attachment a'
                = fold_left (edge_attachment joint (duration (animation_ a)))
                    edges (attachment a).
Proof.
  induction edges as [|edge rest IH]; intros a pose joint Hpose Hjoint.
  - exists a. split; reflexivity.
  - destruct (process_edge_attachment a pose joint edge Hpose Hjoint)
      as (b & Hb & Hatt).
    pose proof (process_edge_frame edge a) as [Hs _].
    rewrite Hb in Hs; cbn [snd] in Hs.
    assert (Hpose' : pose_evaluator (animation_ b) (skeleton_ b) pose).
    { destruct Hs as (Hsk & Han & _). now rewrite Hsk, Han. }
    assert (Hjoint' : forall t, joint_matrix b pose t = joint t).
    { intros t. now rewrite (joint_matrix_session a b). }
    destruct (IH b pose joint Hpose' Hjoint') as (c & Hc & Hatt').
    exists c. cbn [process_edges fold_left]. rewrite Hb.
    cbn [and_then fst snd]. split; [exact Hc|].
    rewrite Hatt', Hatt.
    destruct Hs as (_ & Han & _). now rewrite Han.
Qed.

(** A step of the edge-triggered method whose pose evaluations all
    succeed, seen on the attachment state alone. *)
Lemma OnUpdate_triggering_attachment a _dt edges pose joint :
  method_ a <> 0%Z ->
  pose_evaluator (animation_ a) (skeleton_ a) pose ->
  (forall t, joint_matrix a pose t = joint t) ->
  FloatTrackTriggeringJob_Run (track_ a)
    (time_ (controller_ a) / duration (animation_ a))
    ((time_ (controller_ a) + _dt) / duration (animation_ a))
    threshold edges_capacity = Some edges ->
  exists a',
    OnUpdate _dt a = (true, a')
    /\ same_session a a'
    /\ method_ a' = method_ a
    /\ controller_ a' = PlaybackController_Update _dt (controller_ a)
    /\ attachment a'
       = framed_attachment joint (time_ (controller_ a) + _dt)
           (fold_left (edge_attachment joint (duration (animation_ a)))
              edges (attachment a)).
Proof.
  intros Hmethod Hpose Hjoint Hjob.
  pose proof (OnUpdate_frame _dt a) as Hsession.
  unfold OnUpdate in *.
  set (clocked := set_controller _ a) in *.
  change (method_ clocked) with (method_ a) in *.
  replace (method_ a =? 0)%Z with false in *
    by (symmetry; apply Z.eqb_neq; exact Hmethod).
  assert (Hjob' :
    FloatTrackTriggeringJob_Run (track_ clocked)
      (previous_time_ (controller_ clocked) / duration (animation_ clocked))
      (time_ (controller_ clocked) / duration (animation_ clocked))
      threshold edges_capacity = Some edges) by exact Hjob.
  rewrite (Update_TriggeringMethod_edges _ _ Hjob') in *.
  destruct (process_edges_attachment edges clocked pose joint Hpose Hjoint)
    as (b & Hb & Hatt).
  pose proof (process_edges_frame edges clocked) as [Hs Hc].
  rewrite Hb in Hs, Hc; cbn [snd] in Hs, Hc.
  assert (Hpose' : pose_evaluator (animation_ b) (skeleton_ b) pose).
  { destruct Hs as (Hsk & Han & _). now rewrite Hsk, Han. }
  destruct (Update_Joints_pose b pose (time_ (controller_ clocked)) Hpose')
    as (c & Hjoints & Hm).
  pose proof (Update_Joints_frame (time_ (controller_ clocked)) b)
    as (Hs' & Hc' & (Hat & Hlo & Hwo)).
  rewrite Hjoints in Hs', Hc', Hat, Hlo, Hwo;
    cbn [snd] in Hs', Hc', Hat, Hlo, Hwo.
  rewrite Hb in *. cbn [and_then fst snd] in *. rewrite Hjoints in *.
  cbn [and_then fst snd] in *.
  eexists. split; [reflexivity|]. split; [exact Hsession|].
  destruct Hc as [Hctl Hmeth], Hc' as [Hctl' Hmeth'].
  change (method_ clocked) with (method_ a) in Hmeth.
  split; [destruct (attached_ c); cbn; congruence|].
  split; [destruct (attached_ c); cbn; rewrite ?Hctl', ?Hctl; reflexivity|].
  change (duration (animation_ clocked)) with (duration (animation_ a)) in Hatt.
  change (attachment clocked) with (attachment a) in Hatt.
  rewrite <- Hatt.
  rewrite (joint_matrix_session clocked b pose _ Hs) in Hm.
  change (joint_matrix clocked pose) with (joint_matrix a pose) in Hm.
  rewrite Hjoint in Hm.
  unfold attachment, framed_attachment.
  rewrite <- Hat, <- Hlo, <- Hwo.
  change (time_ (controller_ a) + _dt) with (time_ (controller_ clocked)).
  rewrite <- Hm.
  destruct (attached_ c) eqn:Hattached; cbn; rewrite ?Hattached; reflexivity.
Qed.

(** C1 (amended). Frame-rate independence of the edge-triggered
    policy: when the track crosses the threshold once within
    [[t0, t0 + delta]] and every pose evaluation succeeds, one step of
    size [delta] and two steps of size [delta / 2] from the same state
    end with the same flag and the same local and world transforms,
    provided the state is not one that is attached while the crossing is
    a rising edge reported to the second half step. *)
Theorem frame_rate_independence (a : App) (delta : float) (edge : Edge)
    (first_half second_half : list Edge) (pose : float -> nat -> Float4x4) :
  method_ a <> 0%Z ->
  pose_evaluator (animation_ a) (skeleton_ a) pose ->
  crosses_once a delta edge first_half second_half ->
  (attached_ a = true -> rising edge = true -> second_half = []) ->
  frame_rate_independent a delta.
Proof.
  intros Hmethod Hpose (Hwhole & Hfirst & Hsecond & Happ) Hguard.
  set (joint := joint_matrix a pose).
  destruct (OnUpdate_triggering_attachment a delta [edge] pose joint
              Hmethod Hpose (fun t => eq_refl) Hwhole)
    as (one & Hone & _ & _ & _ & Hatt1).
  destruct (OnUpdate_triggering_attachment a (delta / fl 2 1) first_half pose
              joint Hmethod Hpose (fun t => eq_refl) Hfirst)
    as (half & Hhalf & Hs & Hm & Hctl & Hatt_half).
  assert (Hpose' : pose_evaluator (animation_ half) (skeleton_ half) pose).
  { destruct Hs as (Hsk & Han & _). now rewrite Hsk, Han. }
  assert (Hmethod' : method_ half <> 0%Z) by now rewrite Hm.
  assert (Hjoint' : forall t, joint_matrix half pose t = joint t).
  { intros t. apply joint_matrix_session. exact Hs. }
  assert (Hsecond' :
    FloatTrackTriggeringJob_Run (track_ half)
      (time_ (controller_ half) / duration (animation_ half))
      ((time_ (controller_ half) + delta / fl 2 1) / duration (animation_ half))
      threshold edges_capacity = Some second_half).
  { destruct Hs as (_ & Han & Htr & _). rewrite Han, Htr, Hctl.
    cbn [time_ PlaybackController_Update]. rewrite two_halves. exact Hsecond. }
  destruct (OnUpdate_triggering_attachment half (delta / fl 2 1) second_half
              pose joint Hmethod' Hpose' Hjoint' Hsecond')
    as (two & Htwo & _ & _ & _ & Hatt2).
  unfold frame_rate_independent. cbv zeta.
  rewrite Hone, Hhalf. cbn [fst snd]. rewrite Htwo. cbn [fst snd].
  repeat (split; [reflexivity|]).
  assert (Heq : attachment two = attachment one).
  { rewrite Hatt2, Hatt1, Hatt_half, Hctl.
    cbn [time_ PlaybackController_Update]. rewrite two_halves.
    destruct Hs as (_ & -> & _).
    unfold attachment in *.
    destruct first_half as [|e1 [|e2 rest]]; cbn in Happ.
    - subst second_half. cbn.
      destruct (attached_ a) eqn:Hattached, (rising edge) eqn:Hrising;
        cbn; rewrite ?Hrising; try reflexivity.
      specialize (Hguard eq_refl eq_refl). discriminate Hguard.
    - injection Happ as -> ->. cbn.
      destruct (attached_ a), (rising edge); reflexivity.
    - destruct rest; discriminate Happ. }
  unfold attachment in Heq. injection Heq as Hat Hlo Hwo.
  repeat split; assumption.
Qed.

End FrameRateIndependence.

(** ** The sample on the small runtime *)

Lemma toy_triggering_degenerate track ratio _threshold capacity :
  Toy.triggering track ratio ratio _threshold capacity = Some [].
Proof.
  unfold Toy.triggering.
  replace (filter _ track) with (@nil Edge); [reflexivity|].
  induction track as [|e track IH]; cbn; [reflexivity|].
  unfold Toy.Qc_ltb. now rewrite andb_negb_l.
Qed.

Lemma toy_pose_evaluator animation skeleton :
  pose_evaluator (R := Toy.sound) animation skeleton Toy.pose.
Proof.
  intros cache locals t. exists (t :: cache)%list, t, (Toy.pose t).
  repeat split.
Qed.

(** C9. The flag is assigned before the pose evaluation of the edge:
    when that evaluation fails at an edge, the method returns [false]
    with [attached_] equal to the edge's [rising], while both transforms
    are those left by the previous edges; so a failed step can end with
    the flag changed and no transform captured. *)
Theorem attached_set_before_pose_evaluation :
  (forall (R : Runtime) (a : App) done edge rest b c,
      FloatTrackTriggeringJob_Run (track_ a)
        (previous_time_ (controller_ a) / duration (animation_ a))
        (time_ (controller_ a) / duration (animation_ a))
        threshold edges_capacity = Some (done ++ edge :: rest)%list ->
      process_edges done a = (true, b) ->
      Update_Joints (time edge * duration (animation_ a))
                    (set_attached (rising edge) b) = (false, c) ->
      Update_TriggeringMethod a = (false, c)
      /\ attached_ c = rising edge
      /\ box_local_transform_ c = box_local_transform_ b
      /\ box_world_transform_ c = box_world_transform_ b)
  /\ (exists (R : Runtime) (a c : App),
      Update_TriggeringMethod a = (false, c)
      /\ attached_ c <> attached_ a
      /\ box_local_transform_ c = box_local_transform_ a
      /\ box_world_transform_ c = box_world_transform_ a).
Proof.
  split.
  - intros R a done edge rest b c.
    apply Update_TriggeringMethod_edge_failure.
  - exists Toy.faulty, (Toy.detached Toy.at_6 Toy.track_late 0 (fl 10 1)).
    eexists. split; [vm_compute; reflexivity|].
    split; [discriminate | split; reflexivity].
Qed.

Lemma attached_set_before_pose_evaluation_witness :
  let a := Toy.detached Toy.at_6 Toy.track_pick_drop 0 (fl 10 1) in
  let b := snd (process_edges [Toy.pick] a) in
  let c := snd (Update_Joints (time Toy.drop * duration (animation_ a))
                  (set_attached (rising Toy.drop) b)) in
  Update_TriggeringMethod a = (false, c)
  /\ attached_ c = rising Toy.drop
  /\ box_local_transform_ c = box_local_transform_ b
  /\ box_world_transform_ c = box_world_transform_ b.
Proof.
  intros a b c.
  destruct attached_set_before_pose_evaluation as [Hfail _].
  apply (Hfail (Toy.runtime Toy.at_6) a [Toy.pick] Toy.drop [] b c);
    vm_compute; reflexivity.
Defined.

Lemma Update_TriggeringMethod_failure_witness :
  let busy := Toy.detached Toy.at_6 Toy.track_busy 0 (fl 10 1) in
  let a := Toy.detached Toy.at_6 Toy.track_pick_drop 0 (fl 10 1) in
  let b := snd (process_edges [Toy.pick] a) in
  let c := snd (Update_Joints (time Toy.drop * duration (animation_ a))
                  (set_attached (rising Toy.drop) b)) in
  let a' := Toy.detached Toy.at_6 Toy.track_pick 0 (fl 6 1) in
  let b' := snd (process_edges [Toy.pick] a') in
  let c' := snd (Update_Joints (time_ (controller_ a')) b') in
  let start := Toy.detached Toy.at_6 Toy.track_pick 0 0 in
  Update_TriggeringMethod busy = (false, busy)
  /\ (Update_TriggeringMethod a = (false, c)
      /\ box_local_transform_ c = box_local_transform_ b
      /\ box_world_transform_ c = box_world_transform_ b)
  /\ box_local_transform_ b <> box_local_transform_ a
  /\ (Update_TriggeringMethod a' = (false, c') /\ same_attachment b' c')
  /\ box_local_transform_ b' <> box_local_transform_ a'
  /\ fst (OnUpdate (fl 6 1) start) = false
  /\ attached_ (snd (OnUpdate (fl 6 1) start)) = true
  /\ box_world_transform_ (snd (OnUpdate (fl 6 1) start))
     = box_world_transform_ start.
Proof.
  intros busy a b c a' b' c' start.
  destruct (@Update_TriggeringMethod_failure (Toy.runtime Toy.at_6))
    as (Hquery & Hedge & Hfinal & Hupdate).
  split; [apply Hquery; vm_compute; reflexivity|].
  split; [apply (Hedge a [Toy.pick] Toy.drop [] b c); vm_compute; reflexivity|].
  split; [apply Float4x4_eqb_neq; vm_compute; reflexivity|].
  split; [apply (Hfinal a' [Toy.pick] b' c'); vm_compute; reflexivity|].
  split; [apply Float4x4_eqb_neq; vm_compute; reflexivity|].
  rewrite (Hupdate (fl 6 1) start); [|discriminate|vm_compute; reflexivity].
  repeat split; vm_compute; reflexivity.
Defined.

Lemma Update_TriggeringMethod_final_evaluation_witness :
  let a0 := Toy.detached Toy.never Toy.track_rising (fl 4 1) (fl 5 1) in
  let a := set_controller (PlaybackController_Update 0 (controller_ a0)) a0 in
  let a' := snd (Update_TriggeringMethod a) in
  (exists edges b,
      FloatTrackTriggeringJob_Run (track_ a)
        (previous_time_ (controller_ a) / duration (animation_ a))
        (time_ (controller_ a) / duration (animation_ a))
        threshold edges_capacity = Some edges
      /\ process_edges edges a = (true, b)
      /\ Update_Joints (time_ (controller_ a)) b = (true, a'))
  /\ Update_TriggeringMethod a = Update_Joints (time_ (controller_ a)) a
  /\ same_attachment a a'.
Proof.
  intros a0 a a'.
  destruct (Update_TriggeringMethod_final_evaluation a) as [Hlast Hdegenerate].
  split; [apply Hlast; vm_compute; reflexivity|].
  apply Hdegenerate; [apply PlaybackController_Update_zero|].
  intros ratio. apply toy_triggering_degenerate.
Defined.

Lemma Update_SamplingMethod_semantics_witness :
  let a := Toy.detached Toy.never Toy.track_rising 0 (fl 51 10) in
  let a' := snd (Update_SamplingMethod a) in
  attached_ a' = true
  /\ box_local_transform_ a'
     = mul (Invert (Toy.pose (fl 51 10) 4)) (Translation kBoxInitialPosition).
Proof.
  intros a a'.
  destruct (Update_SamplingMethod_semantics a) as (_ & Hflag & Hlocal & _).
  split.
  - apply Hflag. intros Hzero. apply (f_equal this) in Hzero.
    vm_compute in Hzero. discriminate Hzero.
  - refine (eq_trans Hlocal _). apply Float4x4_eqb_eq. vm_compute. reflexivity.
Defined.

Lemma OnInitialize_attach_joint_witness :
  let a := snd (OnInitialize (Toy.archives Toy.track_rising)
                  LoadSampleApplication) in
  (exists k, first_containing "thumb2" Toy.skeleton k
             /\ attach_joint_ a = Z.of_nat k)
  \/ ((forall name, In name Toy.skeleton -> ~ contains name "thumb2")
      /\ attach_joint_ a = 0%Z).
Proof.
  exact (OnInitialize_attach_joint (R := Toy.sound)
           (Toy.archives Toy.track_rising) Toy.skeleton eq_refl).
Defined.

Lemma attach_joint_in_range_witness :
  let files := Toy.archives Toy.track_rising in
  let a0 := snd (OnInitialize files LoadSampleApplication) in
  let a := run_call CallOnDisplay
             (run_call (CallOnUpdate (fl 1 1))
                (run_call (CallOnGui Toy.gui) a0)) in
  reachable files a
  /\ (0 <= attach_joint_ a < num_joints (skeleton_ a))%Z
  /\ Z.of_nat (List.length (models_ a)) = num_joints (skeleton_ a)
  /\ nth_error (models_ a) (Z.to_nat (attach_joint_ a))
     = Some (models_at_attach_joint a)
  /\ attach_joint_ a = attach_joint_ a0.
Proof.
  intros files a0 a.
  assert (Hreach : reachable files a).
  { do 3 apply reachable_call. apply reachable_init. reflexivity. }
  split; [exact Hreach|].
  apply (attach_joint_in_range files a Hreach). reflexivity.
Defined.

Lemma frame_rate_independence_witness :
  let a := Toy.detached Toy.never Toy.track_rising (fl 2 1) (fl 2 1) in
  crosses_once a (fl 4 1) Toy.rising_at_half [] [Toy.rising_at_half]
  /\ frame_rate_independent a (fl 4 1).
Proof.
  intros a.
  assert (Hcross : crosses_once a (fl 4 1) Toy.rising_at_half
                     [] [Toy.rising_at_half]).
  { unfold crosses_once. repeat split; vm_compute; reflexivity. }
  split; [exact Hcross|].
  apply (frame_rate_independence a (fl 4 1) Toy.rising_at_half
           [] [Toy.rising_at_half] Toy.pose).
  - discriminate.
  - apply toy_pose_evaluator.
  - exact Hcross.
  - intros Hattached. discriminate Hattached.
Defined.

(** C1. As stated, for every initial state, the property fails: from
    a state that is already attached, with the rising edge reported to
    the second half step, the first half step moves the box with the
    joint before the edge captures the local transform. *)
Lemma frame_rate_dependence_when_attached :
  let a := Toy.held Toy.never Toy.track_rising (fl 2 1) (fl 2 1) in
  method_ a <> 0%Z
  /\ pose_evaluator (animation_ a) (skeleton_ a) Toy.pose
  /\ crosses_once a (fl 4 1) Toy.rising_at_half [] [Toy.rising_at_half]
  /\ ~ frame_rate_independent a (fl 4 1).
Proof.
  intros a.
  split; [discriminate|].
  split; [apply toy_pose_evaluator|].
  split; [unfold crosses_once; repeat split; vm_compute; reflexivity|].
  intros (_ & _ & _ & _ & Hlocal & _).
  revert Hlocal. apply Float4x4_eqb_neq. vm_compute. reflexivity.
Qed.

(** * Further properties of the sample *)

Section Update.

Context {R : Runtime}.

(** X1. [OnUpdate] advances the clock once, whichever method is
    selected and whether or not the step succeeds, and never changes the
    selected method. *)
Theorem OnUpdate_advances_clock (_dt : float) (a : App) :
  controller_ (snd (OnUpdate _dt a))
  = PlaybackController_Update _dt (controller_ a)
  /\ method_ (snd (OnUpdate _dt a)) = method_ a.
Proof.
  unfold OnUpdate, and_then.
  set (clocked := set_controller _ a).
  assert (Hc : same_clock clocked
                 (snd (if (method_ clocked =? 0)%Z
                       then Update_SamplingMethod clocked
                       else Update_TriggeringMethod clocked))).
  { destruct (method_ clocked =? 0)%Z;
      [apply Update_SamplingMethod_frame | apply Update_TriggeringMethod_frame]. }
  destruct (if (method_ clocked =? 0)%Z then _ else _) as [[] b];
    cbn [fst snd] in *; destruct Hc as [Hctl Hm].
  - destruct (attached_ b); cbn; rewrite Hctl, Hm; split; reflexivity.
  - rewrite Hctl, Hm. split; reflexivity.
Qed.

Lemma Update_SamplingMethod_failure a :
  fst (Update_SamplingMethod a) = false ->
  same_attachment a (snd (Update_SamplingMethod a)).
Proof.
  unfold Update_SamplingMethod, and_then.
  pose proof (Update_Joints_frame (time_ (controller_ a)) a) as (_ & _ & Hat).
  destruct (Update_Joints (time_ (controller_ a)) a) as [[] b];
    cbn [fst snd] in *; [|intros _; exact Hat].
  destruct (FloatTrackSamplingJob_Run _ _) as [value|]; cbn [fst snd];
    [discriminate | intros _; exact Hat].
Qed.

(** X2. A failed step of the sampling method is atomic for the box:
    whether the pose evaluation or the track sampling failed, the flag and
    both transforms are those from before the step. *)
Theorem OnUpdate_sampling_failure (_dt : float) (a : App) :
  method_ a = 0%Z ->
  fst (OnUpdate _dt a) = false ->
  same_attachment a (snd (OnUpdate _dt a)).
Proof.
  intros Hmethod. unfold OnUpdate, and_then.
  set (clocked := set_controller _ a).
  change (method_ clocked) with (method_ a). rewrite Hmethod. cbn [Z.eqb].
  pose proof (Update_SamplingMethod_failure clocked) as Hfail.
  destruct (Update_SamplingMethod clocked) as [[] b]; cbn [fst snd] in *;
    [discriminate | intros _; apply Hfail; reflexivity].
Qed.

(** X3. No jump on attachment with the sampling method: on the step
    where the flag goes from false to true, if the joint matrix is
    invertible, the local transform is captured from the box's world
    transform and the world transform recomputed at the end of the step
    is the one the box had. *)
Theorem OnUpdate_sampling_attach (_dt : float) (a a' : App) :
  method_ a = 0%Z ->
  OnUpdate _dt a = (true, a') ->
  attached_ a = false ->
  attached_ a' = true ->
  invertible (models_at_attach_joint a') ->
  box_world_transform_ a' = box_world_transform_ a
  /\ box_local_transform_ a'
     = mul (Invert (models_at_attach_joint a')) (box_world_transform_ a).
Proof.
  intros Hmethod Hstep Hdetached Hattached Hinv.
  apply invertible_det in Hinv.
  unfold OnUpdate, and_then in Hstep.
  set (clocked := set_controller _ a) in Hstep.
  change (method_ clocked) with (method_ a) in Hstep.
  rewrite Hmethod in Hstep. cbn [Z.eqb] in Hstep.
  unfold Update_SamplingMethod, and_then in Hstep.
  pose proof (Update_Joints_frame (time_ (controller_ clocked)) clocked)
    as (_ & _ & (Hat & Hlo & Hwo)).
  destruct (Update_Joints (time_ (controller_ clocked)) clocked) as [[] b];
    cbn [fst snd] in *; [|discriminate Hstep].
  destruct (FloatTrackSamplingJob_Run _ _) as [value|];
    cbn [fst snd] in Hstep; [|discriminate Hstep].
  cbn [attached_ set_attached] in Hstep.
  change (attached_ clocked) with (attached_ a) in Hat.
  change (box_world_transform_ clocked) with (box_world_transform_ a) in Hwo.
  rewrite Hat, Hdetached in Hstep.
  destruct (nonzero value); cbn in Hstep; injection Hstep as <-;
    cbn in Hattached; [|congruence].
  cbn in *. rewrite Hwo.
  split; [|reflexivity].
  rewrite mul_assoc, mul_Invert_r by exact Hinv. apply mul_identity_l.
Qed.

Lemma last_cons {A : Type} (l : list A) (x d : A) :
  last (x :: l) d = last l x.
Proof.
  revert x d. induction l as [|y l IH]; intros x d; [reflexivity|].
  change (last (x :: y :: l) d) with (last (y :: l) d).
  now rewrite (IH y d), (IH y x).
Qed.

Lemma process_edge_attached edge a a' :
  process_edge edge a = (true, a') -> attached_ a' = rising edge.
Proof.
  unfold process_edge, and_then.
  pose proof (Update_Joints_frame
                (time edge * duration (animation_ (set_attached (rising edge) a)))
                (set_attached (rising edge) a)) as (_ & _ & (Hat & _)).
  destruct (Update_Joints _ _) as [[] b]; cbn [fst snd] in *; [|discriminate].
  intros [= <-]. destruct (rising edge); exact Hat.
Qed.

Lemma process_edges_attached edges : forall a a',
  process_edges edges a = (true, a') ->
  attached_ a' = last (map rising edges) (attached_ a).
Proof.
  induction edges as [|edge rest IH]; intros a a'; cbn [process_edges map].
  - intros [= <-]. reflexivity.
  - unfold and_then.
    destruct (process_edge edge a) as [[] b] eqn:Hedge; cbn [fst snd];
      [|discriminate].
    intros Hrest. rewrite last_cons, (IH _ _ Hrest).
    now rewrite (process_edge_attached _ _ _ Hedge).
Qed.

(** X4. After a successful step of the triggering method the flag is
    the direction of the last edge reported for the step, and the flag
    from before the step when no edge was reported. *)
Theorem Update_TriggeringMethod_last_edge (a a' : App) :
  Update_TriggeringMethod a = (true, a') ->
  exists edges,
    FloatTrackTriggeringJob_Run (track_ a)
      (previous_time_ (controller_ a) / duration (animation_ a))
      (time_ (controller_ a) / duration (animation_ a))
      threshold edges_capacity = Some edges
    /\ attached_ a' = last (map rising edges) (attached_ a).
Proof.
  intros Hstep.
  destruct (Update_TriggeringMethod_success _ _ Hstep)
    as (edges & b & Hjob & Hdone & Hpose).
  exists edges. split; [exact Hjob|].
  pose proof (Update_Joints_frame (time_ (controller_ a)) b)
    as (_ & _ & (Hat & _)).
  rewrite Hpose in Hat; cbn [snd] in Hat.
  rewrite Hat. apply process_edges_attached. exact Hdone.
Qed.

(** X5. A step of the triggering method in which no edge is reported:
    a detached box stays where it is, an attached box follows the joint
    with its local transform unchanged, and the flag is unchanged. *)
Theorem OnUpdate_triggering_no_edge (_dt : float) (a a' : App) :
  method_ a <> 0%Z ->
  FloatTrackTriggeringJob_Run (track_ a)
    (time_ (controller_ a) / duration (animation_ a))
    ((time_ (controller_ a) + _dt) / duration (animation_ a))
    threshold edges_capacity = Some [] ->
  OnUpdate _dt a = (true, a') ->
  attached_ a' = attached_ a
  /\ box_local_transform_ a' = box_local_transform_ a
  /\ box_world_transform_ a'
     = (if attached_ a
        then mul (models_at_attach_joint a') (box_local_transform_ a)
        else box_world_transform_ a).
Proof.
  intros Hmethod Hjob Hstep.
  unfold OnUpdate in Hstep.
  set (clocked := set_controller _ a) in Hstep.
  change (method_ clocked) with (method_ a) in Hstep.
  replace (method_ a =? 0)%Z with false in Hstep
    by (symmetry; apply Z.eqb_neq; exact Hmethod).
  rewrite (Update_TriggeringMethod_edges clocked [] Hjob) in Hstep.
  cbn [process_edges and_then fst snd] in Hstep.
  pose proof (Update_Joints_frame (time_ (controller_ clocked)) clocked)
    as (_ & _ & (Hat & Hlo & Hwo)).
  destruct (Update_Joints (time_ (controller_ clocked)) clocked) as [[] b];
    cbn [fst snd] in *; [|discriminate Hstep].
  change (attached_ clocked) with (attached_ a) in Hat.
  change (box_local_transform_ clocked) with (box_local_transform_ a) in Hlo.
  change (box_world_transform_ clocked) with (box_world_transform_ a) in Hwo.
  injection Hstep as <-. rewrite <- Hat, <- Hlo, <- Hwo.
  destruct (attached_ b) eqn:Hattached; cbn; rewrite ?Hattached;
    repeat split; reflexivity.
Qed.

(** X6. No jump at a rising edge: when the loop body succeeds on a
    rising edge and the joint matrix evaluated at the edge is invertible,
    the box is attached, its world transform is untouched, and the
    captured local transform gives that world transform back through the
    joint matrix. *)
Theorem process_edge_rising (edge : Edge) (a a' : App) :
  process_edge edge a = (true, a') ->
  rising edge = true ->
  invertible (models_at_attach_joint a') ->
  attached_ a' = true
  /\ box_world_transform_ a' = box_world_transform_ a
  /\ mul (models_at_attach_joint a') (box_local_transform_ a')
     = box_world_transform_ a.
Proof.
  intros Hedge Hrising Hinv. apply invertible_det in Hinv.
  unfold process_edge, and_then in Hedge.
  pose proof (Update_Joints_frame
                (time edge * duration (animation_ (set_attached (rising edge) a)))
                (set_attached (rising edge) a)) as (_ & _ & (Hat & _ & Hwo)).
  destruct (Update_Joints _ _) as [[] b]; cbn [fst snd] in *;
    [|discriminate Hedge].
  rewrite Hrising in *. injection Hedge as <-. cbn in *.
  split; [exact Hat|]. split; [exact Hwo|].
  rewrite Hwo, mul_assoc, mul_Invert_r by exact Hinv. apply mul_identity_l.
Qed.

(** X7. A failed pose evaluation leaves the model matrices, the clock,
    the flag and both transforms as they were: what is displayed next is
    the last pose that was evaluated with success. *)
Theorem Update_Joints_failure (t : float) (a : App) :
  fst (Update_Joints t a) = false ->
  models_ (snd (Update_Joints t a)) = models_ a
  /\ controller_ (snd (Update_Joints t a)) = controller_ a
  /\ same_attachment a (snd (Update_Joints t a)).
Proof.
  pose proof (Update_Joints_frame t a) as (_ & (Hc & _) & Hat).
  revert Hc Hat. unfold Update_Joints.
  destruct (SamplingJob_Run _ _ _ _) as [[cache locals]|]; cbn;
    [|intros; repeat split].
  destruct (LocalToModelJob_Run _ _); cbn; [discriminate|].
  intros; repeat split.
Qed.

End Update.

Section Edges.

Context {R : Runtime}.

(** X8. Picking up and dropping within one step of the triggering
    method: when the step's edges are a rising edge followed by a falling
    one and the pose evaluations succeed, the step ends detached, the
    local transform is the one captured at the rising edge, and the box
    is left where the joint carried it at the falling edge. *)
Theorem OnUpdate_pick_and_drop (_dt : float) (a : App) (pick drop : Edge)
    (pose : float -> nat -> Float4x4) :
  method_ a <> 0%Z ->
  pose_evaluator (animation_ a) (skeleton_ a) pose ->
  FloatTrackTriggeringJob_Run (track_ a)
    (time_ (controller_ a) / duration (animation_ a))
    ((time_ (controller_ a) + _dt) / duration (animation_ a))
    threshold edges_capacity = Some [pick; drop] ->
  rising pick = true ->
  rising drop = false ->
  let joint t := joint_matrix a pose (t * duration (animation_ a)) in
  exists a',
    OnUpdate _dt a = (true, a')
    /\ attached_ a' = false
    /\ box_local_transform_ a'
       = mul (Invert (joint (time pick))) (box_world_transform_ a)
    /\ box_world_transform_ a'
       = mul (joint (time drop))
             (mul (Invert (joint (time pick))) (box_world_transform_ a)).
Proof.
  intros Hmethod Hpose Hjob Hpick Hdrop joint.
  destruct (OnUpdate_triggering_attachment a _dt [pick; drop] pose
              (joint_matrix a pose) Hmethod Hpose (fun t => eq_refl) Hjob)
    as (a' & Hstep & _ & _ & _ & Hatt).
  exists a'. split; [exact Hstep|].
  unfold attachment in Hatt. cbn [fold_left edge_attachment] in Hatt.
  rewrite Hpick in Hatt. cbn [edge_attachment] in Hatt.
  rewrite Hdrop in Hatt. cbn in Hatt.
  injection Hatt as Hat Hlo Hwo. repeat split; assumption.
Qed.

(** X9. A box picked up and dropped within one step while the joint
    has the same invertible matrix at both edges is left exactly where it
    was. *)
Theorem OnUpdate_pick_and_drop_in_place (_dt : float) (a : App)
    (pick drop : Edge) (pose : float -> nat -> Float4x4) :
  method_ a <> 0%Z ->
  pose_evaluator (animation_ a) (skeleton_ a) pose ->
  FloatTrackTriggeringJob_Run (track_ a)
    (time_ (controller_ a) / duration (animation_ a))
    ((time_ (controller_ a) + _dt) / duration (animation_ a))
    threshold edges_capacity = Some [pick; drop] ->
  rising pick = true ->
  rising drop = false ->
  invertible (joint_matrix a pose (time pick * duration (animation_ a))) ->
  joint_matrix a pose (time drop * duration (animation_ a))
  = joint_matrix a pose (time pick * duration (animation_ a)) ->
  exists a',
    OnUpdate _dt a = (true, a')
    /\ attached_ a' = false
    /\ box_world_transform_ a' = box_world_transform_ a.
Proof.
  intros Hmethod Hpose Hjob Hpick Hdrop Hinv Hsame.
  apply invertible_det in Hinv.
  destruct (OnUpdate_triggering_attachment a _dt [pick; drop] pose
              (joint_matrix a pose) Hmethod Hpose (fun t => eq_refl) Hjob)
    as (a' & Hstep & _ & _ & _ & Hatt).
  exists a'. split; [exact Hstep|].
  unfold attachment in Hatt. cbn [fold_left edge_attachment] in Hatt.
  rewrite Hpick in Hatt. cbn [edge_attachment] in Hatt.
  rewrite Hdrop in Hatt. cbn in Hatt.
  injection Hatt as Hat Hlo Hwo. split; [exact Hat|].
  rewrite Hwo, Hsame, mul_assoc, mul_Invert_r by exact Hinv.
  apply mul_identity_l.
Qed.

Lemma fold_edge_attachment_flag joint d edges : forall s,
  fst (fst (fold_left (edge_attachment joint d) edges s))
  = last (map rising edges) (fst (fst s)).
Proof.
  induction edges as [|edge rest IH]; intros [[attached local] world];
    [reflexivity|].
  cbn [fold_left map]. rewrite last_cons, IH.
  cbn. destruct (rising edge); reflexivity.
Qed.

Lemma framed_then_edges joint d t t' edges s :
  fst (fst s) && match edges with
                 | edge :: _ => rising edge
                 | [] => false
                 end = false ->
  framed_attachment joint t'
    (fold_left (edge_attachment joint d) edges (framed_attachment joint t s))
  = framed_attachment joint t' (fold_left (edge_attachment joint d) edges s).
Proof.
  destruct s as [[attached local] world].
  destruct edges as [|edge rest]; cbn [fst fold_left].
  - intros _. cbn. destruct attached; reflexivity.
  - intros Hguard. f_equal. f_equal. cbn.
    destruct attached, (rising edge); try reflexivity. discriminate Hguard.
Qed.

(** X10. Frame-rate independence for any number of edges: when the
    edges reported over [[t0, t0 + delta]] are those of the first half
    followed by those of the second half and every pose evaluation
    succeeds, one step of size [delta] and two steps of size [delta / 2]
    end with the same flag and transforms, unless the first half leaves
    the box attached and the second half starts with a rising edge. *)
Theorem frame_rate_independence_edges (a : App) (delta : float)
    (first_half second_half : list Edge) (pose : float -> nat -> Float4x4) :
  let t0 := time_ (controller_ a) in
  let d := duration (animation_ a) in
  let job := FloatTrackTriggeringJob_Run (track_ a) in
  method_ a <> 0%Z ->
  pose_evaluator (animation_ a) (skeleton_ a) pose ->
  job (t0 / d) ((t0 + delta) / d) threshold edges_capacity
  = Some (first_half ++ second_half)%list ->
  job (t0 / d) ((t0 + delta / fl 2 1) / d) threshold edges_capacity
  = Some first_half ->
  job ((t0 + delta / fl 2 1) / d) ((t0 + delta) / d) threshold edges_capacity
  = Some second_half ->
  last (map rising first_half) (attached_ a)
  && match second_half with
     | edge :: _ => rising edge
     | [] => false
     end = false ->
  frame_rate_independent a delta.
Proof.
  intros t0 d job Hmethod Hpose Hwhole Hfirst Hsecond Hguard.
  set (joint := joint_matrix a pose).
  destruct (OnUpdate_triggering_attachment a delta (first_half ++ second_half)
              pose joint Hmethod Hpose (fun t => eq_refl) Hwhole)
    as (one & Hone & _ & _ & _ & Hatt1).
  destruct (OnUpdate_triggering_attachment a (delta / fl 2 1) first_half pose
              joint Hmethod Hpose (fun t => eq_refl) Hfirst)
    as (half & Hhalf & Hs & Hm & Hctl & Hatt_half).
  assert (Hpose' : pose_evaluator (animation_ half) (skeleton_ half) pose).
  { destruct Hs as (Hsk & Han & _). now rewrite Hsk, Han. }
  assert (Hmethod' : method_ half <> 0%Z) by now rewrite Hm.
  assert (Hjoint' : forall t, joint_matrix half pose t = joint t).
  { intros t. apply joint_matrix_session. exact Hs. }
  assert (Hsecond' :
    FloatTrackTriggeringJob_Run (track_ half)
      (time_ (controller_ half) / duration (animation_ half))
      ((time_ (controller_ half) + delta / fl 2 1) / duration (animation_ half))
      threshold edges_capacity = Some second_half).
  { destruct Hs as (_ & Han & Htr & _). rewrite Han, Htr, Hctl.
    cbn [time_ PlaybackController_Update]. rewrite two_halves. exact Hsecond. }
  destruct (OnUpdate_triggering_attachment half (delta / fl 2 1) second_half
              pose joint Hmethod' Hpose' Hjoint' Hsecond')
    as (two & Htwo & _ & _ & _ & Hatt2).
  unfold frame_rate_independent. cbv zeta.
  rewrite Hone, Hhalf. cbn [fst snd]. rewrite Htwo. cbn [fst snd].
  repeat (split; [reflexivity|]).
  assert (Heq : attachment two = attachment one).
  { rewrite Hatt2, Hatt1, Hatt_half, Hctl.
    cbn [time_ PlaybackController_Update]. rewrite two_halves.
    destruct Hs as (_ & -> & _).
    rewrite fold_left_app. apply framed_then_edges.
    rewrite fold_edge_attachment_flag. exact Hguard. }
  unfold attachment in Heq. injection Heq as Hat Hlo Hwo.
  repeat split; assumption.
Qed.

End Edges.

Section Lifecycle.

Context {R : Runtime}.

(** X11. [OnGui] resets the box exactly when a radio button reports a
    change of method: the flag and both transforms are then those of a
    freshly constructed object; otherwise they are untouched.  It always
    returns [true], leaves in [method_] the value of the second radio
    button, and never touches the pose buffers. *)
Theorem OnGui_reset (_im_gui : ImGui) (a : App) :
  let sampling := DoRadioButton _im_gui 0 "Sampling" (method_ a) in
  let triggering := DoRadioButton _im_gui 1 "Triggering" (snd sampling) in
  let a' := snd (OnGui _im_gui a) in
  fst (OnGui _im_gui a) = true
  /\ method_ a' = snd triggering
  /\ (if fst sampling || fst triggering
      then same_attachment LoadSampleApplication a'
      else same_attachment a a')
  /\ models_ a' = models_ a
  /\ locals_ a' = locals_ a
  /\ cache_ a' = cache_ a.
Proof.
  cbv zeta. unfold OnGui.
  cbn [method_ set_method fst snd].
  destruct (fst (DoRadioButton _im_gui 0 "Sampling" (method_ a))
            || fst (DoRadioButton _im_gui 1 "Triggering"
                      (snd (DoRadioButton _im_gui 0 "Sampling" (method_ a))))),
    (animation_control_open _im_gui); cbn; repeat split.
Qed.

(** X12. [OnInitialize] returns [true] exactly when the skeleton, the
    animation and the track all load; whatever it returns, it leaves the
    flag, both transforms, the method and the clock as they were. *)
Theorem OnInitialize_success_iff (files : Archives) (a : App) :
  (fst (OnInitialize files a) = true
   <-> exists skeleton animation track,
         LoadSkeleton files = Some skeleton
         /\ LoadAnimation files = Some animation
         /\ LoadTrack files = Some track)
  /\ same_attachment a (snd (OnInitialize files a))
  /\ same_clock a (snd (OnInitialize files a)).
Proof.
  unfold OnInitialize.
  destruct (LoadSkeleton files) as [skeleton|],
           (LoadAnimation files) as [animation|],
           (LoadTrack files) as [track|]; cbn [fst snd];
    (split; [|split; repeat split]);
    (split;
     [ first [ discriminate | intros _; do 3 eexists; repeat split ]
     | intros (s & n & t & Hs & Hn & Ht);
       first [ reflexivity | discriminate ] ]).
Qed.

(** X13. The search for the hand joint over a list of names in two
    parts: a match in the first part hides the second part, and without
    one the search goes on in the second part with the indices shifted by
    the length of the first. *)
Theorem find_attach_joint_app (names more : list string) (i attach_joint : Z) :
  find_attach_joint (names ++ more) i attach_joint
  = find_attach_joint names i
      (find_attach_joint more (i + Z.of_nat (List.length names)) attach_joint).
Proof.
  revert i. induction names as [|name names IH]; intros i;
    cbn [app find_attach_joint List.length].
  - f_equal. lia.
  - destruct (non_null (strstr name "thumb2")); [reflexivity|].
    rewrite IH. do 2 f_equal. lia.
Qed.

Lemma OnInitialize_archives files a a' :
  OnInitialize files a = (true, a') ->
  LoadSkeleton files = Some (skeleton_ a')
  /\ LoadAnimation files = Some (animation_ a')
  /\ LoadTrack files = Some (track_ a').
Proof.
  unfold OnInitialize.
  destruct (LoadSkeleton files) as [skeleton|]; [|discriminate].
  destruct (LoadAnimation files) as [animation|]; [|discriminate].
  destruct (LoadTrack files) as [track|]; [|discriminate].
  intros [= <-]. repeat split.
Qed.

(** X14. The archives are loaded once: in every state of a session
    the skeleton, the animation and the track are the ones [OnInitialize]
    loaded. *)
Theorem reachable_archives (files : Archives) (a : App) :
  reachable files a ->
  LoadSkeleton files = Some (skeleton_ a)
  /\ LoadAnimation files = Some (animation_ a)
  /\ LoadTrack files = Some (track_ a).
Proof.
  intros Hreach.
  destruct (reachable_same_session _ _ Hreach)
    as (a0 & Hinit & Hsk & Han & Htr & _).
  rewrite Hsk, Han, Htr. exact (OnInitialize_archives _ _ _ Hinit).
Qed.

End Lifecycle.

(** ** The further properties on the small runtime *)

Lemma OnUpdate_sampling_failure_witness :
  let a := set_method 0 (Toy.detached Toy.at_6 Toy.track_rising 0 0) in
  fst (OnUpdate (fl 6 1) a) = false
  /\ same_attachment a (snd (OnUpdate (fl 6 1) a)).
Proof.
  intros a.
  assert (Hfail : fst (OnUpdate (fl 6 1) a) = false)
    by (vm_compute; reflexivity).
  split; [exact Hfail|].
  apply (OnUpdate_sampling_failure (fl 6 1) a); [reflexivity | exact Hfail].
Defined.

Lemma OnUpdate_sampling_attach_witness :
  let a := set_method 0 (Toy.detached Toy.never Toy.track_rising 0 0) in
  let a' := snd (OnUpdate (fl 51 10) a) in
  invertible (models_at_attach_joint a')
  /\ box_world_transform_ a' = box_world_transform_ a
  /\ box_local_transform_ a'
     = mul (Invert (models_at_attach_joint a')) (box_world_transform_ a).
Proof.
  intros a a'.
  assert (Hinv : invertible (models_at_attach_joint a')).
  { exists (Toy.pose (fl (-51) 10) 4).
    split; apply Float4x4_eqb_eq; vm_compute; reflexivity. }
  split; [exact Hinv|].
  apply (OnUpdate_sampling_attach (fl 51 10) a a');
    [reflexivity | vm_compute; reflexivity | reflexivity
    | vm_compute; reflexivity | exact Hinv].
Defined.

Lemma Update_TriggeringMethod_last_edge_witness :
  let a := Toy.held Toy.never Toy.track_pick_drop 0 (fl 10 1) in
  let a' := snd (Update_TriggeringMethod a) in
  exists edges,
    FloatTrackTriggeringJob_Run (track_ a)
      (previous_time_ (controller_ a) / duration (animation_ a))
      (time_ (controller_ a) / duration (animation_ a))
      threshold edges_capacity = Some edges
    /\ attached_ a' = last (map rising edges) (attached_ a).
Proof.
  intros a a'.
  apply (Update_TriggeringMethod_last_edge a a'). vm_compute. reflexivity.
Defined.

Lemma OnUpdate_triggering_no_edge_witness :
  let a := Toy.held Toy.never Toy.track_rising 0 0 in
  let a' := snd (OnUpdate (fl 2 1) a) in
  attached_ a' = attached_ a
  /\ box_local_transform_ a' = box_local_transform_ a
  /\ box_world_transform_ a'
     = mul (models_at_attach_joint a') (box_local_transform_ a).
Proof.
  intros a a'.
  apply (OnUpdate_triggering_no_edge (fl 2 1) a a');
    [discriminate | vm_compute; reflexivity | vm_compute; reflexivity].
Defined.

Lemma process_edge_rising_witness :
  let a := Toy.detached Toy.never Toy.track_pick_drop 0 (fl 10 1) in
  let a' := snd (process_edge Toy.pick a) in
  invertible (models_at_attach_joint a')
  /\ attached_ a' = true
  /\ box_world_transform_ a' = box_world_transform_ a
  /\ mul (models_at_attach_joint a') (box_local_transform_ a')
     = box_world_transform_ a.
Proof.
  intros a a'.
  assert (Hinv : invertible (models_at_attach_joint a')).
  { exists (Toy.pose (fl (-3) 1) 4).
    split; apply Float4x4_eqb_eq; vm_compute; reflexivity. }
  split; [exact Hinv|].
  apply (process_edge_rising Toy.pick a a');
    [vm_compute; reflexivity | reflexivity | exact Hinv].
Defined.

Lemma Update_Joints_failure_witness :
  let a := Toy.held Toy.at_6 Toy.track_rising 0 (fl 6 1) in
  fst (Update_Joints (fl 6 1) a) = false
  /\ models_ (snd (Update_Joints (fl 6 1) a)) = models_ a
  /\ controller_ (snd (Update_Joints (fl 6 1) a)) = controller_ a
  /\ same_attachment a (snd (Update_Joints (fl 6 1) a)).
Proof.
  intros a.
  assert (Hfail : fst (Update_Joints (fl 6 1) a) = false)
    by (vm_compute; reflexivity).
  split; [exact Hfail|].
  apply (Update_Joints_failure (fl 6 1) a Hfail).
Defined.

Lemma OnUpdate_pick_and_drop_witness :
  let a := Toy.detached Toy.never Toy.track_pick_drop 0 0 in
  let joint t := joint_matrix a Toy.pose (t * duration (animation_ a)) in
  exists a',
    OnUpdate (fl 10 1) a = (true, a')
    /\ attached_ a' = false
    /\ box_local_transform_ a'
       = mul (Invert (joint (time Toy.pick))) (box_world_transform_ a)
    /\ box_world_transform_ a'
       = mul (joint (time Toy.drop))
             (mul (Invert (joint (time Toy.pick))) (box_world_transform_ a)).
Proof.
  intros a.
  apply (OnUpdate_pick_and_drop (fl 10 1) a Toy.pick Toy.drop Toy.pose);
    [discriminate | apply toy_pose_evaluator | vm_compute; reflexivity
    | reflexivity | reflexivity].
Defined.

Lemma OnUpdate_pick_and_drop_in_place_witness :
  let touch := [MkEdge (fl 3 10) true; MkEdge (fl 3 10) false] in
  let a := Toy.detached Toy.never touch 0 0 in
  exists a',
    OnUpdate (fl 10 1) a = (true, a')
    /\ attached_ a' = false
    /\ box_world_transform_ a' = box_world_transform_ a.
Proof.
  intros touch a.
  apply (OnUpdate_pick_and_drop_in_place (fl 10 1) a
           (MkEdge (fl 3 10) true) (MkEdge (fl 3 10) false) Toy.pose);
    [discriminate | apply toy_pose_evaluator | vm_compute; reflexivity
    | reflexivity | reflexivity | | reflexivity].
  exists (Toy.pose (fl (-3) 1) 4).
  split; apply Float4x4_eqb_eq; vm_compute; reflexivity.
Defined.

Lemma frame_rate_independence_edges_witness :
  let a := Toy.detached Toy.never Toy.track_pick_drop 0 0 in
  frame_rate_independent a (fl 10 1).
Proof.
  intros a.
  apply (frame_rate_independence_edges a (fl 10 1) [Toy.pick] [Toy.drop]
           Toy.pose);
    [discriminate | apply toy_pose_evaluator | vm_compute; reflexivity ..].
Defined.

Lemma reachable_archives_witness :
  let files := Toy.archives Toy.track_rising in
  let a0 := snd (OnInitialize files LoadSampleApplication) in
  let a := run_call (CallOnUpdate (fl 1 1)) (run_call (CallOnGui Toy.gui) a0) in
  reachable files a
  /\ LoadSkeleton files = Some (skeleton_ a)
  /\ LoadAnimation files = Some (animation_ a)
  /\ LoadTrack files = Some (track_ a).
Proof.
  intros files a0 a.
  assert (Hreach : reachable files a).
  { do 2 apply reachable_call. apply reachable_init. reflexivity. }
  split; [exact Hreach|].
  apply (reachable_archives files a Hreach).
Defined.

(** X15. With the sampling method, whether or not the step succeeds,
    the local transform changes only on a step that attaches the box, and
    the world transform changes only on a step that ends attached. *)
Theorem OnUpdate_sampling_changes {R : Runtime} (_dt : float) (a : App) :
  method_ a = 0%Z ->
  let a' := snd (OnUpdate _dt a) in
  (box_local_transform_ a' = box_local_transform_ a
   \/ (attached_ a = false /\ attached_ a' = true))
  /\ (box_world_transform_ a' = box_world_transform_ a
      \/ attached_ a' = true).
Proof.
  intros Hmethod. cbv zeta. unfold OnUpdate, and_then.
  set (clocked := set_controller _ a).
  change (method_ clocked) with (method_ a). rewrite Hmethod. cbn [Z.eqb].
  unfold Update_SamplingMethod, and_then.
  pose proof (Update_Joints_frame (time_ (controller_ clocked)) clocked)
    as (_ & _ & (Hat & Hlo & Hwo)).
  change (attached_ clocked) with (attached_ a) in Hat.
  change (box_local_transform_ clocked) with (box_local_transform_ a) in Hlo.
  change (box_world_transform_ clocked) with (box_world_transform_ a) in Hwo.
  destruct (Update_Joints (time_ (controller_ clocked)) clocked) as [[] b];
    cbn [fst snd] in *; [|split; left; assumption].
  destruct (FloatTrackSamplingJob_Run _ _) as [value|]; cbn [fst snd];
    [|split; left; assumption].
  cbn [attached_ set_attached]. rewrite Hat.
  destruct (nonzero value), (attached_ a); cbn;
    rewrite ?Hlo, ?Hwo; split; auto.
Qed.

Lemma OnUpdate_sampling_changes_witness :
  let a := set_method 0 (Toy.held Toy.never Toy.track_rising 0 (fl 6 1)) in
  let a' := snd (OnUpdate (fl 1 1) a) in
  (box_local_transform_ a' = box_local_transform_ a
   \/ (attached_ a = false /\ attached_ a' = true))
  /\ (box_world_transform_ a' = box_world_transform_ a
      \/ attached_ a' = true).
Proof.
  intros a a'. apply (OnUpdate_sampling_changes (fl 1 1) a). reflexivity.
Defined.
